(** * The container store and the execute-action wrapper of the executor

    A shallow embedding of [GardenStore] (package [store]) and of
    [ExecuteAction] (package [execute_action]).

    Go code that talks to the container host, the tracker, the event
    emitter and the logger is written in a state-and-writer monad: the
    state is the part of the world the store can change (the remote host,
    the tracker, the running-process table), the written output is the
    list of effects the call performed, in program order. *)

From Stdlib Require Import Ascii String ZArith List.
From stdpp Require Import base option gmap strings list fin_maps.

Local Open Scope string_scope.
Local Open Scope Z_scope.
Local Open Scope list_scope.

(** ** A state-and-writer monad *)

Definition ST (S E A : Type) : Type := S -> A * S * list E.

Definition ret {S E A} (a : A) : ST S E A := fun s => (a, s, []).

Definition bind {S E A B} (m : ST S E A) (k : A -> ST S E B) : ST S E B :=
  fun s =>
    let '(a, s1, t1) := m s in
    let '(b, s2, t2) := k a s1 in
    (b, s2, t1 ++ t2).

Definition emit {S E} (e : E) : ST S E unit := fun s => (tt, s, [e]).

Definition gets {S E A} (f : S -> A) : ST S E A := fun s => (f s, s, []).

Definition modify {S E} (f : S -> S) : ST S E unit := fun s => (tt, f s, []).

(** [defer d body]: Go's [defer d] placed before [body]; [d] runs when
    [body] returns, and the value returned is [body]'s. *)
Definition defer {S E A} (d : ST S E unit) (body : ST S E A) : ST S E A :=
  bind body (fun a => bind d (fun _ => ret a)).

Declare Scope st_scope.
Delimit Scope st_scope with st.
Notation "'let*' x ':=' m 'in' k" := (bind m (fun x => k))
  (at level 10, x name, m at level 100, k at level 200) : st_scope.
Notation "'let*' ' pat ':=' m 'in' k" :=
  (bind m (fun x => match x with pat => k end))
  (at level 10, pat pattern, m at level 100, k at level 200) : st_scope.
Notation "m '>>' k" := (bind m (fun _ => k))
  (at level 60, right associativity) : st_scope.
Local Open Scope st_scope.

(** ** Go errors

    An [error] value is compared with [==] against package-level
    sentinels, and asked for its message with [Error()]. *)

Inductive error : Type :=
  | ErrContainerNotFound          (* executor.ErrContainerNotFound *)
  | ErrInvalidTransition          (* executor.ErrInvalidTransition *)
  | GardenErrContainerNotFound    (* gardenclient.ErrContainerNotFound *)
  | errors_New (msg : string).    (* any other error value *)

#[global] Instance error_eq_dec : EqDecision error.
Proof. solve_decision. Defined.

(** Modelled from the spec: the error taxonomy of section 7 (the kinds an
    error value belongs to); the packages declaring the sentinels are not
    part of the sources at hand. *)
Inductive ErrorKind : Type :=
  | NotFound | InvalidTransition | HostUnavailable
  | StepFailure | Unrecoverable | Timeout.

#[global] Instance ErrorKind_eq_dec : EqDecision ErrorKind.
Proof. solve_decision. Defined.

(** Modelled from the spec: which kind each error value of the store has.
    Both not-found sentinels are NotFound, the transition sentinel is
    InvalidTransition, and an error raised by a host RPC (transport or
    ping failure) is HostUnavailable. *)
Definition kindOf (e : error) : ErrorKind :=
  match e with
  | ErrContainerNotFound => NotFound
  | GardenErrContainerNotFound => NotFound
  | ErrInvalidTransition => InvalidTransition
  | errors_New _ => HostUnavailable
  end.

(** ** Logging (lager) *)

Inductive DataVal : Type := DStr (s : string) | DInt (n : Z).

Definition Data : Type := list (string * DataVal).

Record Logger : Type := mkLogger { session : list string; sessionData : Data }.

Definition Session (l : Logger) (name : string) (d : Data) : Logger :=
  {| session := session l ++ [name]; sessionData := sessionData l ++ d |}.

Inductive Level : Type := DEBUG | INFO | ERROR.

Record LogEntry : Type := mkLogEntry {
  level : Level;
  source : list string;
  message : string;
  logError : option error;
  logData : Data
}.

Definition logEntry (lv : Level) (l : Logger) (msg : string)
    (err : option error) (d : Data) : LogEntry :=
  {| level := lv; source := session l; message := msg;
     logError := err; logData := sessionData l ++ d |}.

(** [time.Duration] is an [int64] count of nanoseconds. *)
Definition wrap64 (z : Z) : Z := (z + 2 ^ 63) mod 2 ^ 64 - 2 ^ 63.

Definition Second : Z := 1000000000.

(** ** Package [store]: the container store *)

Module store.

(** *** The container record (package [executor]) *)

(** Modelled from the spec: [executor.State] is a string type whose
    constants are the values of the [executor:state] host property
    (section 6, property schema). *)
Definition executor_State : Type := string.
Definition StateReserved : executor_State := "reserved".
Definition StateInitializing : executor_State := "initializing".
Definition StateCreated : executor_State := "created".
Definition StateRunning : executor_State := "running".
Definition StateCompleted : executor_State := "completed".

(** Modelled from the spec: the names of the well-known host properties
    (section 6, property schema). *)
Definition ContainerOwnerProperty : string := "executor:owner".
Definition ContainerStateProperty : string := "executor:state".
Definition ContainerResultProperty : string := "executor:result".
Definition tagPropertyPrefix : string := "tag:".

Record ContainerRunResult : Type := mkRunResult {
  Failed : bool;
  FailureReason : string
}.

Record LogConfig : Type := mkLogConfig {
  LogGuid : string;
  SourceName : string;
  Index : Z
}.

Record PortMapping : Type := mkPortMapping {
  ContainerPort : Z;
  HostPort : Z
}.

Section Model.

(** [ExecutorAction] is the opaque definition of a step tree node
    ([models.ExecutorAction]); [G] is the state of the remote container
    host and [H] a handle on one of its containers ([garden.Container]). *)
Context {ExecutorAction G H : Type}.

Record Container : Type := mkContainer {
  Guid : string;
  State : executor_State;
  Action : option ExecutorAction;
  Setup : option ExecutorAction;
  Monitor : option ExecutorAction;
  StartTimeout : Z;
  Log : LogConfig;
  ExternalIP : string;
  Ports : list PortMapping;
  Tags : gmap string string;
  RunResult : ContainerRunResult
}.

Definition withState (c : Container) (s : executor_State) : Container :=
  {| Guid := Guid c; State := s; Action := Action c; Setup := Setup c;
     Monitor := Monitor c; StartTimeout := StartTimeout c; Log := Log c;
     ExternalIP := ExternalIP c; Ports := Ports c; Tags := Tags c;
     RunResult := RunResult c |}.

Inductive Event : Type :=
  | ContainerRunningEvent (c : Container)
  | ContainerCompleteEvent (c : Container).

(** *** Step trees (package [steps]), as [Run] builds them *)

Record LogStreamer : Type := mkLogStreamer {
  ls_guid : string;
  ls_sourceName : string;
  ls_index : Z
}.

Definition log_streamer_New (guid sourceName : string) (index : Z) : LogStreamer :=
  {| ls_guid := guid; ls_sourceName := sourceName; ls_index := index |}.

(** The constructors stand for [transformer.StepFor], [steps.NewMonitor]
    (whose readiness channel is the [hasStartedRunning] of the process that
    runs it), [steps.NewCodependent] and [steps.NewSerial]. *)
#[local] Unset Elimination Schemes.
Inductive Step : Type :=
  | StepFor (logStreamer : LogStreamer) (action : option ExecutorAction)
      (gardenContainer : H) (externalIP : string) (ports : list PortMapping)
      (logger : Logger)
  | NewMonitor (monitoredStep : Step) (logger : Logger)
      (startTimeout healthyInterval unhealthyInterval : Z)
  | NewCodependent (steps : list Step)
  | NewSerial (steps : list Step).
#[local] Set Elimination Schemes.

(** What the [select] of the step process receives: a signal, the
    readiness token of [hasStartedRunning], or the outcome of
    [step.Perform()] on [seqComplete]. *)
Inductive Recv : Type :=
  | RecvSignal
  | RecvStarted
  | RecvSeqComplete (err : option error).

(** A step process as [runStepProcess] invokes it: the values its closure
    captures. [p_hasStartedRunning] is the content of the buffered
    readiness channel at that moment. *)
Record Process : Type := mkProcess {
  p_logger : Logger;
  p_step : Step;
  p_monitorStep : option Step;
  p_hasStartedRunning : list unit;
  p_gardenContainer : H;
  p_guid : string
}.

(** *** Effects and the world *)

Inductive Effect : Type :=
  | ELog (e : LogEntry)
  | EGardenLookup (guid : string) (err : option error)
  | EGardenContainers (filter : gmap string string) (err : option error)
  | EGardenDestroy (guid : string) (err : option error)
  | ESetProperty (h : H) (name value : string) (err : option error)
  | EGarden2Executor (h : H) (err : option error)
  | ECreateInGarden (c : Container) (err : option error)
  | ETrackerInitialize (c : Container)
  | ETrackerDeinitialize (guid : string)
  | EEmitEvent (ev : Event)
  | EChanSend                         (* hasStartedRunning <- struct{}{} *)
  | EInvoke (p : Process)             (* ifrit.Invoke of the step process *)
  | ESignal (p : Process)             (* process.Signal(os.Interrupt) *)
  | EGoPerform (s : Step)             (* go func() { seqComplete <- step.Perform() }() *)
  | ECancel (s : Step)                (* s.Cancel() *)
  | EReceive (r : Recv).              (* a case of the select fired *)

(** Modelled from the spec: the tracker (section 4.3) is a mapping from
    guid to record, keys unique; [InitializedTracker] is only an interface
    in the sources. *)
Record World : Type := mkWorld {
  garden : G;
  tracker : gmap string Container;
  runningProcesses : gmap string Process
}.

Definition M (A : Type) : Type := ST World Effect A.

Definition setGarden (w : World) (g : G) : World :=
  {| garden := g; tracker := tracker w;
     runningProcesses := runningProcesses w |}.

Definition setTracker (w : World) (t : gmap string Container) : World :=
  {| garden := garden w; tracker := t;
     runningProcesses := runningProcesses w |}.

Definition setRunningProcesses (w : World) (ps : gmap string Process) : World :=
  {| garden := garden w; tracker := tracker w; runningProcesses := ps |}.

(** The zero value [executor.Container{}]. *)
Definition emptyContainer : Container :=
  {| Guid := EmptyString; State := EmptyString; Action := None;
     Setup := None; Monitor := None; StartTimeout := 0;
     Log := mkLogConfig EmptyString EmptyString 0; ExternalIP := EmptyString;
     Ports := []; Tags := ∅; RunResult := mkRunResult false EmptyString |}.

(** *** The collaborators the store is built on

    [garden.Client] with the one [garden.Container] method the store
    calls, and the store's [Exchanger]: interfaces whose implementations
    are outside the store. Every call may fail and may change the host. *)

Class GardenClient : Type := {
  client_Lookup : string -> G -> (H * option error) * G;
  client_Containers : gmap string string -> G -> (list H * option error) * G;
  client_Destroy : string -> G -> option error * G;
  container_SetProperty : H -> string -> string -> G -> option error * G
}.

Class Exchanger : Type := {
  exchanger_Garden2Executor : H -> G -> (Container * option error) * G;
  exchanger_CreateInGarden : Logger -> Container -> G -> (Container * option error) * G
}.

Record GardenStore : Type := mkGardenStore {
  containerOwnerName : string;
  healthyMonitoringInterval : Z;
  unhealthyMonitoringInterval : Z
}.

(** [Error] is the method [Error()] of an error value, [json_Marshal] is
    [json.Marshal] at type [executor.ContainerRunResult]. *)
Context `{!GardenClient, !Exchanger}
        (Error : error -> string)
        (json_Marshal : ContainerRunResult -> string * option error).

Definition log (lv : Level) (l : Logger) (msg : string)
    (err : option error) (d : Data) : M unit :=
  emit (ELog (logEntry lv l msg err d)).

(** A call on the host: run it on the host state, record it with its
    error result. *)
Definition hostCall {A} (f : G -> A * G) (e : A -> Effect) : M A :=
  fun w => let '(a, g') := f (garden w) in (a, setGarden w g', [e a]).

Definition gardenClient_Lookup (guid : string) : M (H * option error) :=
  hostCall (client_Lookup guid) (fun r => EGardenLookup guid (snd r)).

Definition gardenClient_Containers (filter : gmap string string)
    : M (list H * option error) :=
  hostCall (client_Containers filter) (fun r => EGardenContainers filter (snd r)).

Definition gardenClient_Destroy (guid : string) : M (option error) :=
  hostCall (client_Destroy guid) (fun r => EGardenDestroy guid r).

Definition SetProperty (h : H) (name value : string) : M (option error) :=
  hostCall (container_SetProperty h name value)
           (fun r => ESetProperty h name value r).

Definition Garden2Executor (h : H) : M (Container * option error) :=
  hostCall (exchanger_Garden2Executor h) (fun r => EGarden2Executor h (snd r)).

Definition CreateInGarden (logger : Logger) (c : Container)
    : M (Container * option error) :=
  hostCall (exchanger_CreateInGarden logger c)
           (fun r => ECreateInGarden c (snd r)).

(** Modelled from the spec: [initialize(record)] adds or updates the
    record for its guid, [deinitialize(guid)] removes it (section 4.3). *)
Definition tracker_Initialize (c : Container) : M unit :=
  emit (ETrackerInitialize c) >>
  modify (fun w => setTracker w (<[Guid c := c]> (tracker w))).

Definition tracker_Deinitialize (guid : string) : M unit :=
  emit (ETrackerDeinitialize guid) >>
  modify (fun w => setTracker w (delete guid (tracker w))).

Definition EmitEvent (ev : Event) : M unit := emit (EEmitEvent ev).

(** *** The store *)

Definition Lookup (guid : string) : M (Container * option error) :=
  let* '(gardenContainer, err) := gardenClient_Lookup guid in
  match err with
  | Some _ => ret (emptyContainer, Some ErrContainerNotFound)
  | None => Garden2Executor gardenContainer
  end.

(** The body of the [for ... range gardenContainers] of [List]. *)
Fixpoint List_loop (gardenContainers : list H) (result : list Container)
    : M (list Container) :=
  match gardenContainers with
  | [] => ret result
  | gardenContainer :: rest =>
      let* '(container, err) := Garden2Executor gardenContainer in
      match err with
      | Some _ => List_loop rest result
      | None => List_loop rest (result ++ [container])
      end
  end.

Definition List_filter (store : GardenStore) (tags : gmap string string)
    : gmap string string :=
  map_fold (fun k v filter => <[tagPropertyPrefix +:+ k := v]> filter)
           {[ContainerOwnerProperty := containerOwnerName store]} tags.

Definition List (store : GardenStore) (tags : gmap string string)
    : M (list Container * option error) :=
  let filter := List_filter store tags in
  let* '(gardenContainers, err) := gardenClient_Containers filter in
  match err with
  | Some _ => ret ([], Some ErrContainerNotFound)
  | None =>
      let* result := List_loop gardenContainers [] in
      ret (result, None)
  end.

Definition Create (store : GardenStore) (logger : Logger) (container : Container)
    : M (Container * option error) :=
  if decide (State container ≠ StateInitializing) then
    ret (emptyContainer, Some ErrInvalidTransition)
  else
    let container := withState container StateCreated in
    let* '(container, err) := CreateInGarden logger container in
    match err with
    | Some e => ret (emptyContainer, Some e)
    | None =>
        tracker_Initialize container >>
        ret (container, None)
    end.

(** Returns [Some process] for Go's [(process, true)] and [None] for
    [(nil, false)]. *)
Definition freeStepProcess (store : GardenStore) (logger : Logger) (guid : string)
    : M (option Process) :=
  let logger := Session logger "freeing-step-process" [] in
  log INFO logger "started" None [] >>
  defer (log INFO logger "finished" None []) (
    let* process := gets (fun w => runningProcesses w !! guid) in
    modify (fun w => setRunningProcesses w (delete guid (runningProcesses w))) >>
    match process with
    | None => ret None
    | Some p =>
        log INFO logger "interrupting-process" None [] >>
        emit (ESignal p) >>
        ret (Some p)
    end).

Definition Destroy (store : GardenStore) (logger : Logger) (guid : string)
    : M (option error) :=
  let logger := Session logger "destroying-container"
                        [("container-guid", DStr guid)] in
  log INFO logger "started" None [] >>
  freeStepProcess store logger guid >>
  let* err := gardenClient_Destroy guid in
  match err with
  | Some e =>
      log ERROR logger "failed-to-destroy-garden-container" (Some e) [] >>
      ret (Some e)
  | None =>
      tracker_Deinitialize guid >>
      log INFO logger "succeeded" None [] >>
      ret None
  end.

Definition transitionToRunning (gardenContainer : H) : M (option error) :=
  let* err := SetProperty gardenContainer ContainerStateProperty StateRunning in
  match err with
  | Some e => ret (Some e)
  | None =>
      let* '(executorContainer, err) := Garden2Executor gardenContainer in
      match err with
      | Some e => ret (Some e)
      | None =>
          EmitEvent (ContainerRunningEvent executorContainer) >>
          ret None
      end
  end.

Definition transitionToComplete (gardenContainer : H) (result : ContainerRunResult)
    : M (option error) :=
  let '(resultJson, err) := json_Marshal result in
  match err with
  | Some e => ret (Some e)
  | None =>
      let* err := SetProperty gardenContainer ContainerResultProperty resultJson in
      match err with
      | Some e => ret (Some e)
      | None =>
          let* err := SetProperty gardenContainer ContainerStateProperty
                                  StateCompleted in
          match err with
          | Some e => ret (Some e)
          | None =>
              let* '(executorContainer, err) := Garden2Executor gardenContainer in
              match err with
              | Some e => ret (Some e)
              | None =>
                  EmitEvent (ContainerCompleteEvent executorContainer) >>
                  ret None
              end
          end
      end
  end.

(** [runStepProcess] up to its return: [ifrit.Invoke] starts the process
    and returns once the process has closed [ready], which it does right
    after its first log line; the process is then stored in the table. *)
Definition runStepProcess (store : GardenStore) (logger : Logger)
    (step : Step) (monitorStep : option Step) (hasStartedRunning : list unit)
    (gardenContainer : H) (guid : string) : M unit :=
  let process := mkProcess logger step monitorStep hasStartedRunning
                           gardenContainer guid in
  emit (EInvoke process) >>
  log INFO (Session logger "running-step-process" []) "started" None [] >>
  modify (fun w => setRunningProcesses w (<[guid := process]> (runningProcesses w))) >>
  let* numProcesses := gets (fun w => Z.of_nat (size (runningProcesses w))) in
  log DEBUG logger "stored-step-process" None
      [("num-step-processes", DInt numProcesses)].

(** The [OUTER_LOOP] of the step process, run on the sequence [sched] of
    what its [select] receives, in order. [signals] and
    [hasStartedRunning] tell whether the channel variable is still
    non-nil: a case on a nil channel never fires, so an item of [sched]
    for such a channel is passed over. The value is [Some result] when
    the loop is left by [break OUTER_LOOP], and [None] when [sched] is
    used up and the [select] is still waiting. *)
Fixpoint OUTER_LOOP (p : Process) (logger : Logger) (sched : list Recv)
    (signals hasStartedRunning : bool) (result : ContainerRunResult)
    : M (option ContainerRunResult) :=
  match sched with
  | [] => ret None
  | RecvSignal :: sched' =>
      if signals then
        emit (EReceive RecvSignal) >>
        log DEBUG logger "signaled" None [] >>
        match p_monitorStep p with
        | Some monitorStep => emit (ECancel monitorStep)
        | None => ret tt
        end >>
        emit (ECancel (p_step p)) >>
        OUTER_LOOP p logger sched' false hasStartedRunning result
      else OUTER_LOOP p logger sched' signals hasStartedRunning result
  | RecvStarted :: sched' =>
      if hasStartedRunning then
        emit (EReceive RecvStarted) >>
        log DEBUG logger "transitioning-to-running" None [] >>
        let* err := transitionToRunning (p_gardenContainer p) in
        match err with
        | Some e =>
            log ERROR logger "failed-transitioning-to-running" (Some e) [] >>
            ret (Some (mkRunResult true (Error e)))
        | None =>
            log DEBUG logger "succeeded-transitioning-to-running" None [] >>
            OUTER_LOOP p logger sched' signals false result
        end
      else OUTER_LOOP p logger sched' signals hasStartedRunning result
  | RecvSeqComplete err :: _ =>
      emit (EReceive (RecvSeqComplete err)) >>
      match err with
      | None =>
          log DEBUG logger "step-finished-normally" None [] >>
          ret (Some result)
      | Some e =>
          log DEBUG logger "step-finished-with-error" None
              [("error", DStr (Error e))] >>
          ret (Some (mkRunResult true (Error e)))
      end
  end.

(** What follows [OUTER_LOOP] in the step process. *)
Definition stepProcess_complete (p : Process) (logger : Logger)
    (result : ContainerRunResult) : M (option error) :=
  defer (log INFO logger "finished" None []) (
    log DEBUG logger "transitioning-to-complete" None [] >>
    let* err := transitionToComplete (p_gardenContainer p) result in
    match err with
    | Some e =>
        log ERROR logger "failed-transitioning-to-complete" (Some e) [] >>
        ret None
    | None =>
        log DEBUG logger "succeeded-transitioning-to-complete" None [] >>
        ret None
    end).

(** The step process from [close(ready)] on. [Some r] is the value the
    process function returns; [None] means it is still in its loop. *)
Definition stepProcess (p : Process) (sched : list Recv)
    : M (option (option error)) :=
  let logger := Session (p_logger p) "running-step-process" [] in
  emit (EGoPerform (p_step p)) >>
  let* r := OUTER_LOOP p logger sched true true (mkRunResult false EmptyString) in
  match r with
  | None => ret None
  | Some result =>
      let* err := stepProcess_complete p logger result in
      ret (Some err)
  end.

Definition Run (store : GardenStore) (logger : Logger) (container : Container)
    : M (option error) :=
  let logger := Session logger "running-container"
                        [("container", DStr (Guid container))] in
  log INFO logger "started" None [] >>
  defer (log INFO logger "finished" None []) (
    let* '(gardenContainer, err) := gardenClient_Lookup (Guid container) in
    match err with
    | Some e =>
        if decide (e = GardenErrContainerNotFound) then
          log ERROR logger "garden-container-not-found" None [] >>
          ret (Some e)
        else
          log ERROR logger "failed-to-lookup-garden-container" (Some e) [] >>
          ret (Some e)
    | None =>
        log DEBUG logger "found-garden-container" None [] >>
        if decide (State container ≠ StateCreated) then
          log DEBUG logger "container-invalid-state-transition" None
              [("current-state", DStr (State container));
               ("required-state", DStr StateCreated)] >>
          let transitionErr := ErrInvalidTransition in
          let result := {| Failed := true;
                           FailureReason := Error transitionErr |} in
          let* err := transitionToComplete gardenContainer result in
          match err with
          | Some e => log ERROR logger "failed-transition-to-complete" (Some e) []
          | None => ret tt
          end >>
          ret (Some transitionErr)
        else
          let logStreamer := log_streamer_New (LogGuid (Log container))
                                              (SourceName (Log container))
                                              (Index (Log container)) in
          let stepFor action :=
            StepFor logStreamer action gardenContainer
                    (ExternalIP container) (Ports container) logger in
          let seq := [] in
          let seq := match Setup container with
                     | Some _ => seq ++ [stepFor (Setup container)]
                     | None => seq
                     end in
          let parallelSequence := [stepFor (Action container)] in
          let* '(monitorStep, parallelSequence, hasStartedRunning) :=
            match Monitor container with
            | Some _ =>
                let monitoredStep := stepFor (Monitor container) in
                let monitorStep :=
                  NewMonitor monitoredStep (Session logger "monitor" [])
                             (wrap64 (wrap64 (StartTimeout container) * Second))
                             (healthyMonitoringInterval store)
                             (unhealthyMonitoringInterval store) in
                ret (Some monitorStep, parallelSequence ++ [monitorStep], [])
            | None =>
                (* this container isn't monitored, so we mark it running
                   right away *)
                emit EChanSend >>
                ret (None, parallelSequence, [tt])
            end in
          let seq := seq ++ [NewCodependent parallelSequence] in
          let step := NewSerial seq in
          runStepProcess store logger step monitorStep hasStartedRunning
                         gardenContainer (Guid container) >>
          ret None
    end).

(** *** Reading a run of the store *)

(** The logger of a call of [Run]. *)
Definition runLogger (logger : Logger) (container : Container) : Logger :=
  Session logger "running-container" [("container", DStr (Guid container))].

(** The logger of a call of [Destroy]. *)
Definition destroyLogger (logger : Logger) (guid : string) : Logger :=
  Session logger "destroying-container" [("container-guid", DStr guid)].

(** The logger of a step process. *)
Definition processLogger (p : Process) : Logger :=
  Session (p_logger p) "running-step-process" [].

(** The effects of the step process when its [select] receives a signal
    while [signals] is not nil. *)
Definition signalEffects (p : Process) : list Effect :=
  [EReceive RecvSignal;
   ELog (logEntry DEBUG (processLogger p) "signaled" None [])]
  ++ match p_monitorStep p with
     | Some monitorStep => [ECancel monitorStep]
     | None => []
     end
  ++ [ECancel (p_step p)].

(** The effects of a step process that receives the signals [pre], and
    nothing else, before the readiness token. *)
Definition beforeReadiness (p : Process) (pre : list Recv) : list Effect :=
  EGoPerform (p_step p)
  :: match pre with
     | [] => []
     | _ :: _ => signalEffects p
     end.

(** The effects of a successful transition to Running on the receipt of
    the readiness token; [c] is the record the exchanger reconstitutes. *)
Definition runningEffects (p : Process) (c : Container) : list Effect :=
  [EReceive RecvStarted;
   ELog (logEntry DEBUG (processLogger p) "transitioning-to-running" None []);
   ESetProperty (p_gardenContainer p) ContainerStateProperty StateRunning None;
   EGarden2Executor (p_gardenContainer p) None;
   EEmitEvent (ContainerRunningEvent c);
   ELog (logEntry DEBUG (processLogger p) "succeeded-transitioning-to-running"
                  None [])].

(** The same when the host refuses the write of the Running state with
    the error [e]. *)
Definition failedRunningEffects (p : Process) (e : error) : list Effect :=
  [EReceive RecvStarted;
   ELog (logEntry DEBUG (processLogger p) "transitioning-to-running" None []);
   ESetProperty (p_gardenContainer p) ContainerStateProperty StateRunning (Some e);
   ELog (logEntry ERROR (processLogger p) "failed-transitioning-to-running"
                  (Some e) [])].

(** What the exchanger answers for each container of a listing, in order,
    the host state being threaded through the calls. *)
Fixpoint reconstitute (hs : list H) (g : G)
    : list (H * (Container * option error)) * G :=
  match hs with
  | [] => ([], g)
  | h :: rest =>
      let '(r, g1) := exchanger_Garden2Executor h g in
      let '(os, g2) := reconstitute rest g1 in
      ((h, r) :: os, g2)
  end.

(** The records among such answers: those that came without an error. *)
Definition records (os : list (H * (Container * option error))) : list Container :=
  omap (fun o => match o.2.2 with None => Some o.2.1 | Some _ => None end) os.

Definition exchanges (os : list (H * (Container * option error))) : list Effect :=
  map (fun o => EGarden2Executor o.1 o.2.2) os.

(** The effects of a terminal transition: the writes of the result and of
    the Completed state, and the ContainerComplete event. *)
Definition isCompletion (e : Effect) : bool :=
  match e with
  | ESetProperty _ name value _ =>
      bool_decide (name = ContainerResultProperty)
      || (bool_decide (name = ContainerStateProperty)
          && bool_decide (value = StateCompleted))
  | EEmitEvent (ContainerCompleteEvent _) => true
  | _ => false
  end.

(** *** The sentences of the specification that the code is compared with *)

(** Run on a record outside Created: the container is moved to Completed
    with a failed result and a reason, and InvalidTransition is returned. *)
Definition Run_rejects_every_wrong_state (store : GardenStore) (logger : Logger)
    (container : Container) (w : World) : Prop :=
  State container ≠ StateCreated ->
  ∃ w' t h json c,
    Run store logger container w = (Some ErrInvalidTransition, w', t)
    ∧ json_Marshal (mkRunResult true (Error ErrInvalidTransition)) = (json, None)
    ∧ ESetProperty h ContainerResultProperty json None ∈ t
    ∧ ESetProperty h ContainerStateProperty StateCompleted None ∈ t
    ∧ EEmitEvent (ContainerCompleteEvent c) ∈ t.

(** An unmonitored container: the step process persists Running and emits
    ContainerRunning before its terminal transition. *)
Definition unmonitored_runs_before_completing (p : Process) (sched : list Recv)
    (w : World) : Prop :=
  p_monitorStep p = None ->
  p_hasStartedRunning p = [tt] ->
  ∀ r w' t,
    stepProcess p sched w = (Some r, w', t) ->
    ∃ t1 t2 t3 c,
      t = t1 ++ ESetProperty (p_gardenContainer p) ContainerStateProperty
                             StateRunning None
             :: t2 ++ EEmitEvent (ContainerRunningEvent c) :: t3
      ∧ forallb (fun e => negb (isCompletion e)) (t1 ++ t2) = true.

(** Persisting Running fails at readiness: the step process records the
    failure and consumes the completion of the step tree before its
    terminal transition. *)
Definition running_failure_awaits_completion (p : Process) (sched : list Recv)
    (w : World) : Prop :=
  ∀ e g' pre rest x,
    container_SetProperty (p_gardenContainer p) ContainerStateProperty
                          StateRunning (garden w) = (Some e, g') ->
    Forall (fun r => r = RecvSignal) pre ->
    sched = pre ++ RecvStarted :: rest ->
    RecvSeqComplete x ∈ rest ->
    ∃ r w' t t1 t2 x',
      stepProcess p sched w = (Some r, w', t)
      ∧ t = t1 ++ EReceive (RecvSeqComplete x') :: t2
      ∧ forallb (fun e => negb (isCompletion e)) t1 = true.

(** Destroy when the host fails to destroy: the error is logged and the
    tracker entry removed all the same. *)
Definition Destroy_untracks_on_host_failure (store : GardenStore) (logger : Logger)
    (guid : string) (w : World) : Prop :=
  ∀ e g',
    client_Destroy guid (garden w) = (Some e, g') ->
    ∃ r w' t entry,
      Destroy store logger guid w = (r, w', t)
      ∧ ELog entry ∈ t ∧ logError entry = Some e
      ∧ tracker w' !! guid = None.

(** List when the listing RPC fails: the error returned is of the
    HostUnavailable kind. *)
Definition List_failure_is_host_unavailable (store : GardenStore)
    (tags : gmap string string) (w : World) : Prop :=
  ∀ hs e g',
    client_Containers (List_filter store tags) (garden w) = ((hs, Some e), g') ->
    ∃ r e' w' t,
      List store tags w = ((r, Some e'), w', t)
      ∧ kindOf e' = HostUnavailable.

(** List when a container does not reconstitute: the failure is reported,
    and the listing goes on and returns without error. *)
Definition List_reports_parse_errors (store : GardenStore)
    (tags : gmap string string) (w : World) : Prop :=
  ∀ r err w' t h e,
    List store tags w = ((r, err), w', t) ->
    EGarden2Executor h (Some e) ∈ t ->
    err = None ∧ ∃ entry, ELog entry ∈ t ∧ logError entry = Some e.

End Model.

Arguments Container : clear implicits.
Arguments Event : clear implicits.
Arguments Step : clear implicits.
Arguments Process : clear implicits.
Arguments Effect : clear implicits.
Arguments World : clear implicits.
Arguments M : clear implicits.
Arguments GardenClient : clear implicits.
Arguments Exchanger : clear implicits.

(** *** A scripted host

    A container host and exchanger in the manner of the fakes the
    repository's tests are written against: the containers it holds, their
    properties, and the failures it is told to produce. Handles are guids
    and action definitions are names. *)

Module Fake.

Record FakeGarden : Type := mkFakeGarden {
  handles : list string;
  properties : list (string * string * string);
  unparsable : list string;
  containersErr : option error;
  destroyErr : option error;
  createErr : option error;
  setPropertyErrs : list (option error)
}.

Definition getProperty (g : FakeGarden) (h name : string) : string :=
  match List.find (fun e => bool_decide (e.1 = (h, name))) (properties g) with
  | Some e => e.2
  | None => EmptyString
  end.

Definition Lookup (guid : string) (g : FakeGarden)
    : (string * option error) * FakeGarden :=
  if bool_decide (guid ∈ handles g) then ((guid, None), g)
  else ((EmptyString, Some GardenErrContainerNotFound), g).

Definition Containers (filter : gmap string string) (g : FakeGarden)
    : (list string * option error) * FakeGarden :=
  match containersErr g with
  | Some e => (([], Some e), g)
  | None => ((handles g, None), g)
  end.

Definition Destroy (guid : string) (g : FakeGarden) : option error * FakeGarden :=
  match destroyErr g with
  | Some e => (Some e, g)
  | None =>
      (None,
       mkFakeGarden (List.filter (fun h => negb (bool_decide (h = guid))) (handles g))
                    (properties g) (unparsable g) (containersErr g)
                    (destroyErr g) (createErr g) (setPropertyErrs g))
  end.

(** The successive calls of [SetProperty] fail as [setPropertyErrs]
    scripts them, and succeed once the script is used up. *)
Definition SetProperty (h name value : string) (g : FakeGarden)
    : option error * FakeGarden :=
  match setPropertyErrs g with
  | Some e :: script =>
      (Some e,
       mkFakeGarden (handles g) (properties g) (unparsable g) (containersErr g)
                    (destroyErr g) (createErr g) script)
  | script =>
      (None,
       mkFakeGarden (handles g) ((h, name, value) :: properties g)
                    (unparsable g) (containersErr g) (destroyErr g)
                    (createErr g) (List.tl script))
  end.

Definition Garden2Executor (h : string) (g : FakeGarden)
    : (Container string * option error) * FakeGarden :=
  if bool_decide (h ∈ unparsable g) then
    ((emptyContainer, Some (errors_New "missing properties")), g)
  else
    ((mkContainer h (getProperty g h ContainerStateProperty) None None
                  None 0 (mkLogConfig EmptyString EmptyString 0) EmptyString
                  [] ∅ (mkRunResult false EmptyString), None), g).

Definition CreateInGarden (logger : Logger) (c : Container string) (g : FakeGarden)
    : (Container string * option error) * FakeGarden :=
  match createErr g with
  | Some e => ((emptyContainer, Some e), g)
  | None =>
      ((c, None),
       mkFakeGarden (Guid c :: handles g)
                    ((Guid c, ContainerStateProperty, State c) :: properties g)
                    (unparsable g) (containersErr g) (destroyErr g)
                    (createErr g) (setPropertyErrs g))
  end.

#[global] Instance client : GardenClient FakeGarden string :=
  {| client_Lookup := Lookup;
     client_Containers := Containers;
     client_Destroy := Destroy;
     container_SetProperty := SetProperty |}.

#[global] Instance exchanger : Exchanger string FakeGarden string :=
  {| exchanger_Garden2Executor := Garden2Executor;
     exchanger_CreateInGarden := CreateInGarden |}.

Definition Error (e : error) : string :=
  match e with
  | ErrContainerNotFound => "container not found"
  | ErrInvalidTransition => "invalid state transition"
  | GardenErrContainerNotFound => "container not found"
  | errors_New msg => msg
  end.

Definition quote : string := String "034"%char EmptyString.

Definition json_Marshal (r : ContainerRunResult) : string * option error :=
  ("{" +:+ quote +:+ "Failed" +:+ quote +:+ ":" +:+
   (if Failed r then "true" else "false") +:+ "," +:+
   quote +:+ "FailureReason" +:+ quote +:+ ":" +:+
   quote +:+ FailureReason r +:+ quote +:+ "}", None).

End Fake.

End store.

(** ** Package [execute_action] *)

Module execute_action.

(** The fields of [models.RunOnce] that [ExecuteAction] reads or writes. *)
Record RunOnce : Type := mkRunOnce {
  Guid : string;
  ContainerHandle : string;
  Failed : bool;
  FailureReason : string
}.

Definition setFailed (r : RunOnce) (b : bool) : RunOnce :=
  {| Guid := Guid r; ContainerHandle := ContainerHandle r;
     Failed := b; FailureReason := FailureReason r |}.

Definition setFailureReason (r : RunOnce) (s : string) : RunOnce :=
  {| Guid := Guid r; ContainerHandle := ContainerHandle r;
     Failed := Failed r; FailureReason := s |}.

(** The methods of [action_runner.ActionRunner]. *)
Inductive ActionRunnerMethod : Type := AR_Perform | AR_Cancel | AR_Cleanup.

Inductive Effect : Type :=
  | EActionRunner (m : ActionRunnerMethod)   (* a call on action.actionRunner *)
  | EReceive (err : option error)            (* err := <-actionResult *)
  | EErrord (data : list (string * string)) (msg : string)
  | EStoreFailed (b : bool)                  (* action.runOnce.Failed = b *)
  | EStoreFailureReason (s : string)         (* action.runOnce.FailureReason = s *)
  | ESend (v : option error).                (* result <- v *)

(** The state is the [RunOnce] record that [action.runOnce] points to. *)
Definition M (A : Type) : Type := ST RunOnce Effect A.

Section Model.

Context (Error : error -> string).

(** [Perform] up to [err := <-actionResult], where it blocks. *)
Definition Perform_spawn : M unit :=
  emit (EActionRunner AR_Perform).

(** [Perform] from the moment [actionResult] delivers [err]. *)
Definition Perform_resume (err : option error) : M unit :=
  emit (EReceive err) >>
  match err with
  | Some e =>
      let* runOnce := gets (fun r => r) in
      emit (EErrord [("runonce-guid", Guid runOnce);
                     ("handle", ContainerHandle runOnce);
                     ("error", Error e)]
                    "runonce.actions.failed") >>
      modify (fun r => setFailed r true) >>
      emit (EStoreFailed true) >>
      modify (fun r => setFailureReason r (Error e)) >>
      emit (EStoreFailureReason (Error e))
  | None => ret tt
  end >>
  emit (ESend None).

(** [Perform] when the inner action runner delivers [inner]. *)
Definition Perform (inner : option error) : M unit :=
  Perform_spawn >> Perform_resume inner.

Definition Cancel : M unit := ret tt.

Definition Cleanup : M unit := ret tt.

(** *** An action in use

    The calls made on one [ExecuteAction] and the delivery of the inner
    runner's result, one at a time. [Blocked] is a [Perform] waiting on
    [actionResult]. *)

Inductive Status : Type := Idle | Blocked | Returned.

Record Sys : Type := mkSys {
  runOnce : RunOnce;
  status : Status;
  trace : list Effect
}.

Inductive Input : Type :=
  | CallPerform
  | CallCancel
  | CallCleanup
  | Deliver (err : option error).

Definition run (m : M unit) (st : Status) (s : Sys) : Sys :=
  let '(_, r, t) := m (runOnce s) in
  {| runOnce := r; status := st; trace := trace s ++ t |}.

Definition step (s : Sys) (i : Input) : Sys :=
  match i with
  | CallPerform =>
      match status s with
      | Idle => run Perform_spawn Blocked s
      | _ => s
      end
  | CallCancel => run Cancel (status s) s
  | CallCleanup => run Cleanup (status s) s
  | Deliver err =>
      match status s with
      | Blocked => run (Perform_resume err) Returned s
      | _ => s
      end
  end.

Definition steps (s : Sys) (inputs : list Input) : Sys :=
  fold_left step inputs s.

Definition isCancelOrCleanup (i : Input) : bool :=
  match i with
  | CallCancel | CallCleanup => true
  | _ => false
  end.

End Model.

End execute_action.

(** ** Package [store], continued: stopping, files, ping, reconciliation *)

Module store_lifecycle.
Import store.

Section Model.

(** [ReadCloser] is what [StreamOut] hands back ([io.ReadCloser]). *)
Context {ExecutorAction G H ReadCloser : Type}.

(** The effects of the store together with those of the operations of
    this part: waiting for a process, streaming out of a container, the
    ping, and the ticker, the tracker synchronisation and the [select] of
    the reconciliation loop. *)
Inductive LifecycleEffect : Type :=
  | EStore (e : Effect ExecutorAction H)
  | EWait (p : Process ExecutorAction H)      (* <-process.Wait() *)
  | EStreamOut (h : H) (sourcePath : string) (err : option error)
  | EPing (err : option error)
  | ENewTicker (interval : Z)                 (* store.timeProvider.NewTicker(interval) *)
  | ETickerStop                               (* ticker.Stop() *)
  | ECloseReady                               (* close(ready) *)
  | EReceiveSignal                            (* case <-signals *)
  | EReceiveTick                              (* case <-ticker.C() *)
  | ESyncInitialized (containers : list (Container ExecutorAction)).

Definition L (A : Type) : Type :=
  ST (World ExecutorAction G H) LifecycleEffect A.

(** An operation of the store run as part of one of these. *)
Definition lift {A} (m : M ExecutorAction G H A) : L A :=
  fun w => let '(a, w', t) := m w in (a, w', map EStore t).

(** The other methods of [garden.Client] and [garden.Container] that the
    store calls. A nil reader is [None]. *)
Class GardenStreams : Type := {
  container_StreamOut : H -> string -> G -> (option ReadCloser * option error) * G;
  client_Ping : G -> option error * G
}.

Context `{!GardenClient G H, !Exchanger ExecutorAction G H, !GardenStreams}.

Definition lifecycleCall {A} (f : G -> A * G) (e : A -> LifecycleEffect) : L A :=
  fun w => let '(a, g') := f (garden w) in (a, setGarden w g', [e a]).

(** Modelled from the spec: [sync_initialized(list)] replaces the tracked
    set with the given list (section 4.3); [InitializedTracker] is only an
    interface in the sources. *)
Definition tracker_SyncInitialized (containers : list (Container ExecutorAction))
    : L unit :=
  emit (ESyncInitialized containers) >>
  modify (fun w => setTracker w (list_to_map ((fun c => (Guid c, c)) <$> containers))).

(** The fields of a fresh store that the model keeps, and its table of
    running processes, which is empty. *)
Definition NewGardenStore (containerOwnerName : string)
    (healthyMonitoringInterval unhealthyMonitoringInterval : Z)
    : GardenStore * gmap string (Process ExecutorAction H) :=
  (mkGardenStore containerOwnerName healthyMonitoringInterval
                 unhealthyMonitoringInterval, ∅).

Definition stopLogger (logger : Logger) (guid : string) : Logger :=
  Session logger "stopping-container" [("container-guid", DStr guid)].

Definition Stop (store : GardenStore) (logger : Logger) (guid : string)
    : L (option error) :=
  let logger := Session logger "stopping-container"
                        [("container-guid", DStr guid)] in
  lift (log INFO logger "started" None []) >>
  defer (lift (log INFO logger "finished" None [])) (
    let* process := lift (freeStepProcess store logger guid) in
    match process with
    | None => ret (Some ErrContainerNotFound)
    | Some p =>
        emit (EWait p) >>
        ret None
    end).

Definition GetFiles (store : GardenStore) (guid sourcePath : string)
    : L (option ReadCloser * option error) :=
  let* '(container, err) := lift (gardenClient_Lookup guid) in
  match err with
  | Some _ => ret (None, Some ErrContainerNotFound)
  | None =>
      lifecycleCall (container_StreamOut container sourcePath)
                    (fun r => EStreamOut container sourcePath (snd r))
  end.

Definition Ping (store : GardenStore) : L (option error) :=
  lifecycleCall client_Ping (fun r => EPing r).

(** What the [select] of the reconciliation loop receives. *)
Inductive Tock : Type := TockSignal | TockTick.

(** The loop [dance] of [TrackContainers], run on the sequence of what
    its [select] receives. The value is [true] when the loop is left by
    [break dance], [false] when [sched] is used up and the [select] is
    still waiting. *)
Fixpoint dance (store : GardenStore) (logger : Logger) (sched : list Tock)
    : L bool :=
  match sched with
  | [] => ret false
  | TockSignal :: _ =>
      emit EReceiveSignal >>
      ret true
  | TockTick :: sched' =>
      emit EReceiveTick >>
      let* '(containers, err) := lift (List store ∅) in
      match err with
      | Some e =>
          lift (log ERROR logger "failed-to-list-containers" (Some e) []) >>
          dance store logger sched'
      | None =>
          tracker_SyncInitialized containers >>
          dance store logger sched'
      end
  end.

(** The runner that [TrackContainers] returns, run on [sched]. [Some r]
    is the value the runner returns; [None] means it is still in its
    loop. *)
Definition TrackContainers (store : GardenStore) (interval : Z) (logger : Logger)
    (sched : list Tock) : L (option (option error)) :=
  let logger := Session logger "garden-store-track-containers" [] in
  emit (ENewTicker interval) >>
  emit ECloseReady >>
  let* left := dance store logger sched in
  if left then
    emit ETickerStop >>
    ret (Some None)
  else ret None.

End Model.

Arguments LifecycleEffect : clear implicits.
Arguments L : clear implicits.
Arguments GardenStreams : clear implicits.

End store_lifecycle.

(** ** Counting in the traces of the store *)

Module store_traces.
Import store.

Section Model.

Context {ExecutorAction H : Type}.

Definition isLog (e : Effect ExecutorAction H) : bool :=
  match e with ELog _ => true | _ => false end.

Definition isReceiveSignal (e : Effect ExecutorAction H) : bool :=
  match e with EReceive RecvSignal => true | _ => false end.

Definition isReceiveStarted (e : Effect ExecutorAction H) : bool :=
  match e with EReceive RecvStarted => true | _ => false end.

Definition isReceiveSeqComplete (e : Effect ExecutorAction H) : bool :=
  match e with EReceive (RecvSeqComplete _) => true | _ => false end.

Definition isCancel (e : Effect ExecutorAction H) : bool :=
  match e with ECancel _ => true | _ => false end.

Definition isRunningEvent (e : Effect ExecutorAction H) : bool :=
  match e with EEmitEvent (ContainerRunningEvent _) => true | _ => false end.

Definition isCompleteEvent (e : Effect ExecutorAction H) : bool :=
  match e with EEmitEvent (ContainerCompleteEvent _) => true | _ => false end.

(** How many effects of a trace are of a given sort. *)
Definition count (f : Effect ExecutorAction H -> bool)
    (t : list (Effect ExecutorAction H)) : nat :=
  length (List.filter f t).

End Model.

End store_traces.

(** ** Concrete stores, hosts and records *)

Module Fixtures.
Import store.

Abbreviation FakeWorld := (World string Fake.FakeGarden string).
Abbreviation FakeProcess := (Process string string).

Definition aStore : GardenStore :=
  mkGardenStore "executor" 30000000000 500000000.

Definition aLogger : Logger := mkLogger ["test"] [].

(** A record with an action and neither setup nor monitor. *)
Definition record (guid : string) (state : executor_State) : Container string :=
  mkContainer guid state (Some "run") None None 0
              (mkLogConfig guid "APP" 0) "10.0.0.1" [] ∅
              (mkRunResult false EmptyString).

(** A host that holds the containers [handles] and fails at nothing. *)
Definition host (handles : list string) : Fake.FakeGarden :=
  Fake.mkFakeGarden handles [] [] None None None [].

Definition connectionRefused : error := errors_New "connection refused".

Definition world (g : Fake.FakeGarden) : FakeWorld := mkWorld g ∅ ∅.

Definition emptyHost : Fake.FakeGarden := host [].

Definition healthyHost : Fake.FakeGarden := host ["guid-1"].

(** The next write of a property fails, the later ones succeed. *)
Definition refusingWritesHost : Fake.FakeGarden :=
  Fake.mkFakeGarden ["guid-1"] [] [] None None None [Some connectionRefused].

Definition refusingDestroyHost : Fake.FakeGarden :=
  Fake.mkFakeGarden ["guid-1"] [] [] None (Some connectionRefused) None [].

Definition refusingCreateHost : Fake.FakeGarden :=
  Fake.mkFakeGarden [] [] [] None None (Some connectionRefused) [].

Definition refusingListHost : Fake.FakeGarden :=
  Fake.mkFakeGarden ["guid-1"] [] [] (Some connectionRefused) None None [].

(** Three containers, the second of which does not reconstitute. *)
Definition mixedHost : Fake.FakeGarden :=
  Fake.mkFakeGarden ["guid-1"; "guid-2"; "guid-3"] [] ["guid-2"]
                    None None None [].

(** A world whose tracker holds the record of [guid-1]. *)
Definition trackingWorld (g : Fake.FakeGarden) : FakeWorld :=
  mkWorld g {["guid-1" := record "guid-1" StateCreated]} ∅.

(** The step process that [Run] invokes for [record "guid-1" StateCreated]. *)
Definition unmonitoredProcess : FakeProcess :=
  let logger := runLogger aLogger (record "guid-1" StateCreated) in
  mkProcess logger
    (NewSerial
       [NewCodependent
          [StepFor (log_streamer_New "guid-1" "APP" 0) (Some "run") "guid-1"
                   "10.0.0.1" [] logger]])
    None [tt] "guid-1" "guid-1".

Definition aRunOnce : execute_action.RunOnce :=
  execute_action.mkRunOnce "runonce-1" "handle-1" false EmptyString.

End Fixtures.

(** ** More concrete records and worlds *)

Module ExtraFixtures.
Import store store_lifecycle Fixtures.

(** A record with a setup, an action and a monitor, and a start timeout
    of thirty seconds. *)
Definition monitoredRecord : Container string :=
  mkContainer "guid-1" StateCreated (Some "run") (Some "download")
              (Some "probe") 30 (mkLogConfig "guid-1" "APP" 0) "10.0.0.1" []
              ∅ (mkRunResult false EmptyString).

(** A world in which the process of [guid-1] is running. *)
Definition runningWorld (g : Fake.FakeGarden) : FakeWorld :=
  mkWorld g ∅ {["guid-1" := unmonitoredProcess]}.

(** Streams are the paths they were asked for; the host is always there. *)
#[global] Instance streams : GardenStreams Fake.FakeGarden string string :=
  {| container_StreamOut := fun h sourcePath g => ((Some sourcePath, None), g);
     client_Ping := fun g => (None, g) |}.

End ExtraFixtures.

(** ** Properties of the container store *)

Module StoreProofs.
Import store.

(** Unfolding of the monad and of the collaborators' wrappers. *)
Ltac st_unfold :=
  cbv [defer bind ret emit gets modify log hostCall
       gardenClient_Lookup gardenClient_Containers gardenClient_Destroy
       SetProperty Garden2Executor CreateInGarden tracker_Initialize
       tracker_Deinitialize EmitEvent];
  cbn [garden tracker runningProcesses setGarden setTracker
       setRunningProcesses fst snd];
  repeat change (setGarden (setGarden ?w _) ?g) with (setGarden w g).

(** Each effect of an explicit trace is of one of the listed shapes. *)
Ltac trace_shape :=
  repeat (apply List.Forall_cons;
          [first [ eexists; reflexivity
                 | left; eexists; split; reflexivity
                 | right; eexists; reflexivity
                 | left; eexists; reflexivity ] |]);
  apply List.Forall_nil.

(** An effect that is claimed to occur in a trace made of explicit
    effects and of parts known not to hold it does not occur. *)
Ltac trace_absent Hin :=
  repeat match type of Hin with
         | _ ∈ _ :: _ => apply elem_of_cons in Hin as [Hin|Hin]; [discriminate|]
         | _ ∈ _ ++ _ => apply elem_of_app in Hin as [Hin|Hin]; [try done|]
         | _ ∈ [] => by apply elem_of_nil in Hin
         end; try done.

Lemma occurs_in_the_middle {A} (x : A) (t t1 t2 : list A) :
  t = t1 ++ x :: t2 -> x ∈ t.
Proof. intros ->. apply elem_of_app. right. apply elem_of_cons. by left. Qed.

Ltac effects_shape :=
  repeat (apply List.Forall_cons; [solve [eauto 10] |]);
  apply List.Forall_nil.

Section Proofs.

Context {ExecutorAction G H : Type}
        `{!GardenClient G H, !Exchanger ExecutorAction G H}
        (Error : error -> string)
        (json_Marshal : ContainerRunResult -> string * option error).

Implicit Types (store : GardenStore) (logger : Logger)
  (container : Container ExecutorAction) (w : World ExecutorAction G H)
  (h : H) (e : error) (p : Process ExecutorAction H).

Abbreviation Run := (Run Error json_Marshal).
Abbreviation transitionToComplete := (transitionToComplete json_Marshal).

(** [Run] when the lookup of the host container fails. *)
Lemma Run_lookup_failure store logger container w h e g' :
  client_Lookup (Guid container) (garden w) = ((h, Some e), g') ->
  Run store logger container w =
    (Some e, setGarden w g',
     [ELog (logEntry INFO (runLogger logger container) "started" None []);
      EGardenLookup (Guid container) (Some e);
      ELog (if decide (e = GardenErrContainerNotFound)
            then logEntry ERROR (runLogger logger container)
                          "garden-container-not-found" None []
            else logEntry ERROR (runLogger logger container)
                          "failed-to-lookup-garden-container" (Some e) []);
      ELog (logEntry INFO (runLogger logger container) "finished" None [])]).
Proof.
  intros Hlookup. unfold store.Run. st_unfold. rewrite Hlookup. st_unfold.
  destruct (decide (e = GardenErrContainerNotFound)); reflexivity.
Qed.

(** [Run] when the host container is found and the record is not in
    Created: the transition to Completed is attempted with the failed
    result, whatever comes of it. *)
Lemma Run_wrong_state store logger container w h g1 terr w2 t2 :
  client_Lookup (Guid container) (garden w) = ((h, None), g1) ->
  State container ≠ StateCreated ->
  transitionToComplete h (mkRunResult true (Error ErrInvalidTransition))
                       (setGarden w g1) = (terr, w2, t2) ->
  Run store logger container w =
    (Some ErrInvalidTransition, w2,
     [ELog (logEntry INFO (runLogger logger container) "started" None []);
      EGardenLookup (Guid container) None;
      ELog (logEntry DEBUG (runLogger logger container)
                     "found-garden-container" None []);
      ELog (logEntry DEBUG (runLogger logger container)
                     "container-invalid-state-transition" None
                     [("current-state", DStr (State container));
                      ("required-state", DStr StateCreated)])]
     ++ t2
     ++ match terr with
        | Some e' => [ELog (logEntry ERROR (runLogger logger container)
                                     "failed-transition-to-complete" (Some e') [])]
        | None => []
        end
     ++ [ELog (logEntry INFO (runLogger logger container) "finished" None [])]).
Proof.
  intros Hlookup Hstate Htrans. unfold store.Run. st_unfold.
  rewrite Hlookup. st_unfold. rewrite decide_True by done.
  rewrite Htrans. destruct terr; cbn; rewrite <- ?app_assoc; reflexivity.
Qed.

(** [transitionToComplete] when the host takes both writes and the
    record reconstitutes. *)
Lemma transitionToComplete_ok h result w json g1 g2 c g3 :
  json_Marshal result = (json, None) ->
  container_SetProperty h ContainerResultProperty json (garden w) = (None, g1) ->
  container_SetProperty h ContainerStateProperty StateCompleted g1 = (None, g2) ->
  exchanger_Garden2Executor h g2 = ((c, None), g3) ->
  transitionToComplete h result w =
    (None, setGarden w g3,
     [ESetProperty h ContainerResultProperty json None;
      ESetProperty h ContainerStateProperty StateCompleted None;
      EGarden2Executor h None;
      EEmitEvent (ContainerCompleteEvent c)]).
Proof.
  intros Hjson Hres Hstate Hback. unfold store.transitionToComplete.
  rewrite Hjson. st_unfold. rewrite Hres. st_unfold. rewrite Hstate.
  st_unfold. rewrite Hback. reflexivity.
Qed.

(** The transitions write to the host and emit events; they leave the
    tracker and the table of running processes alone. *)
Lemma transitionToComplete_world h result w terr w2 t2 :
  transitionToComplete h result w = (terr, w2, t2) ->
  w2 = setGarden w (garden w2).
Proof.
  unfold store.transitionToComplete. destruct (json_Marshal result) as [json [e0|]].
  - st_unfold. intros [= <- <- <-]. by destruct w.
  - st_unfold.
    destruct (container_SetProperty h ContainerResultProperty json (garden w))
      as [[e1|] g1]; st_unfold; [intros [= <- <- <-]; reflexivity|].
    destruct (container_SetProperty h ContainerStateProperty StateCompleted g1)
      as [[e2|] g2]; st_unfold; [intros [= <- <- <-]; reflexivity|].
    destruct (exchanger_Garden2Executor h g2) as [[c [e3|]] g3]; st_unfold;
      intros [= <- <- <-]; reflexivity.
Qed.

Lemma transitionToRunning_world h w terr w2 t2 :
  transitionToRunning h w = (terr, w2, t2) ->
  w2 = setGarden w (garden w2).
Proof.
  unfold transitionToRunning. st_unfold.
  destruct (container_SetProperty h ContainerStateProperty StateRunning (garden w))
    as [[e1|] g1]; st_unfold; [intros [= <- <- <-]; reflexivity|].
  destruct (exchanger_Garden2Executor h g1) as [[c [e3|]] g3]; st_unfold;
    intros [= <- <- <-]; reflexivity.
Qed.

(** C10. [Run] looks the host container up before it validates the state
    of the record. For every record whose guid has no host container,
    whatever the state of the record (no condition is put on it, so
    records outside Created are included), [Run] returns the error of the
    lookup, which is of the NotFound kind; the only effects are three log
    lines and the lookup itself: no host property is written, no event is
    emitted, no process is started, and the world is changed by nothing
    but the lookup call. *)
Theorem Run_looks_up_before_validating store logger container w h g' :
  client_Lookup (Guid container) (garden w)
    = ((h, Some GardenErrContainerNotFound), g') ->
  Run store logger container w =
    (Some GardenErrContainerNotFound, setGarden w g',
     [ELog (logEntry INFO (runLogger logger container) "started" None []);
      EGardenLookup (Guid container) (Some GardenErrContainerNotFound);
      ELog (logEntry ERROR (runLogger logger container)
                     "garden-container-not-found" None []);
      ELog (logEntry INFO (runLogger logger container) "finished" None [])])
  ∧ kindOf GardenErrContainerNotFound = NotFound
  ∧ tracker (setGarden w g') = tracker w
  ∧ runningProcesses (setGarden w g') = runningProcesses w.
Proof.
  intros Hlookup. split; [|done].
  rewrite (Run_lookup_failure _ _ _ _ _ _ _ Hlookup).
  rewrite decide_True by done. reflexivity.
Qed.

(** C1, as amended. For every record whose state is not Created and whose
    guid has a host container (the lookup succeeds), [Run] attempts the
    transition to Completed with [Failed = true] and the message of the
    InvalidTransition error as failure reason, and returns
    InvalidTransition, whatever comes of the attempt; nothing is stored in
    the tracker or in the table of running processes. When the result
    marshals, the host takes both property writes and the record
    reconstitutes, the attempt writes the result and the Completed state
    to the host and emits ContainerComplete. *)
Theorem Run_rejects_wrong_state_when_found store logger container w h g1 :
  client_Lookup (Guid container) (garden w) = ((h, None), g1) ->
  State container ≠ StateCreated ->
  ∃ terr w2 t2 t1 t3,
    transitionToComplete h (mkRunResult true (Error ErrInvalidTransition))
                         (setGarden w g1) = (terr, w2, t2)
    ∧ Run store logger container w
        = (Some ErrInvalidTransition, w2, t1 ++ t2 ++ t3)
    ∧ t1 = [ELog (logEntry INFO (runLogger logger container) "started" None []);
            EGardenLookup (Guid container) None;
            ELog (logEntry DEBUG (runLogger logger container)
                           "found-garden-container" None []);
            ELog (logEntry DEBUG (runLogger logger container)
                           "container-invalid-state-transition" None
                           [("current-state", DStr (State container));
                            ("required-state", DStr StateCreated)])]
    ∧ Forall (fun x => ∃ entry, x = ELog entry) t3
    ∧ tracker w2 = tracker w
    ∧ runningProcesses w2 = runningProcesses w
    ∧ ∀ json g2 g3 c g4,
        json_Marshal (mkRunResult true (Error ErrInvalidTransition))
          = (json, None) ->
        container_SetProperty h ContainerResultProperty json g1 = (None, g2) ->
        container_SetProperty h ContainerStateProperty StateCompleted g2
          = (None, g3) ->
        exchanger_Garden2Executor h g3 = ((c, None), g4) ->
        terr = None
        ∧ w2 = setGarden w g4
        ∧ t2 = [ESetProperty h ContainerResultProperty json None;
                ESetProperty h ContainerStateProperty StateCompleted None;
                EGarden2Executor h None;
                EEmitEvent (ContainerCompleteEvent c)].
Proof.
  intros Hlookup Hstate.
  destruct (transitionToComplete h (mkRunResult true (Error ErrInvalidTransition))
                                 (setGarden w g1)) as [[terr w2] t2] eqn:Htrans.
  exists terr, w2, t2. eexists _, _. split; [reflexivity|].
  split; [exact (Run_wrong_state _ _ _ _ _ _ _ _ _ Hlookup Hstate Htrans)|].
  split; [reflexivity|].
  pose proof (transitionToComplete_world _ _ _ _ _ _ Htrans) as Hw.
  split; [destruct terr; trace_shape|].
  split; [by rewrite Hw|]. split; [by rewrite Hw|].
  intros json g2 g3 c g4 Hjson Hres Hst Hback.
  rewrite (transitionToComplete_ok h _ (setGarden w g1) json g2 g3 c g4)
    in Htrans by done.
  by injection Htrans as <- <- <-.
Qed.

(** C2. [Create] on a record that is not in Initializing returns
    InvalidTransition and does nothing at all: no host container is
    created and the tracker is unchanged. On a record in Initializing it
    hands the record, with its state set to Created, to the exchanger to
    materialize the host container; when that succeeds the record the
    exchanger returns is registered with the tracker and returned; when it
    fails the host error is returned and the tracker is left as it was, so
    the record is not tracked by this call. *)
Theorem Create_checks_state_then_creates_and_tracks store logger container w :
  (State container ≠ StateInitializing ->
     Create store logger container w
       = ((emptyContainer, Some ErrInvalidTransition), w, []))
  ∧ (State container = StateInitializing ->
     State (withState container StateCreated) = StateCreated
     ∧ (∀ c' g',
          exchanger_CreateInGarden logger (withState container StateCreated)
                                   (garden w) = ((c', None), g') ->
          ∃ w',
            Create store logger container w
              = ((c', None), w',
                 [ECreateInGarden (withState container StateCreated) None;
                  ETrackerInitialize c'])
            ∧ garden w' = g'
            ∧ tracker w' = <[Guid c' := c']> (tracker w)
            ∧ tracker w' !! Guid c' = Some c'
            ∧ runningProcesses w' = runningProcesses w)
     ∧ (∀ c' e g',
          exchanger_CreateInGarden logger (withState container StateCreated)
                                   (garden w) = ((c', Some e), g') ->
          ∃ w',
            Create store logger container w
              = ((emptyContainer, Some e), w',
                 [ECreateInGarden (withState container StateCreated) (Some e)])
            ∧ garden w' = g'
            ∧ tracker w' = tracker w
            ∧ runningProcesses w' = runningProcesses w)).
Proof.
  split.
  - intros Hstate. unfold Create. rewrite decide_True by done. reflexivity.
  - intros Hstate. split; [reflexivity|]. split.
    + intros c' g' Hcreate. eexists. split.
      * unfold Create. rewrite decide_False by (intros Hne; by apply Hne).
        st_unfold. rewrite Hcreate. st_unfold. reflexivity.
      * cbn. repeat split. apply lookup_insert_eq.
    + intros c' e g' Hcreate. eexists. split.
      * unfold Create. rewrite decide_False by (intros Hne; by apply Hne).
        st_unfold. rewrite Hcreate. st_unfold. reflexivity.
      * done.
Qed.

(** [freeStepProcess] touches nothing but the table of running processes. *)
Lemma freeStepProcess_run store logger guid w :
  ∃ t,
    freeStepProcess store logger guid w
      = (runningProcesses w !! guid,
         setRunningProcesses w (delete guid (runningProcesses w)), t)
    ∧ Forall (fun x => (∃ entry, x = ELog entry ∧ logError entry = None)
                       ∨ ∃ p, x = ESignal p) t.
Proof.
  unfold freeStepProcess. st_unfold.
  destruct (runningProcesses w !! guid) as [p|]; eexists; (split; [reflexivity|]);
    trace_shape.
Qed.

(** [Destroy] when the host fails to destroy the container. *)
Lemma Destroy_host_failure store logger guid w e g' :
  client_Destroy guid (garden w) = (Some e, g') ->
  ∃ t,
    Destroy store logger guid w
      = (Some e,
         setGarden (setRunningProcesses w (delete guid (runningProcesses w))) g',
         ELog (logEntry INFO (destroyLogger logger guid) "started" None [])
         :: t
         ++ [EGardenDestroy guid (Some e);
             ELog (logEntry ERROR (destroyLogger logger guid)
                            "failed-to-destroy-garden-container" (Some e) [])])
    ∧ Forall (fun x => (∃ entry, x = ELog entry ∧ logError entry = None)
                       ∨ ∃ p, x = ESignal p) t.
Proof.
  intros Hdestroy.
  destruct (freeStepProcess_run store (destroyLogger logger guid) guid w)
    as (t & Hfree & Ht).
  exists t. split; [|done].
  unfold Destroy. fold (destroyLogger logger guid). st_unfold.
  rewrite Hfree. st_unfold. rewrite Hdestroy. st_unfold.
  reflexivity.
Qed.

(** [Destroy] when the host destroys the container. *)
Lemma Destroy_host_success store logger guid w g' :
  client_Destroy guid (garden w) = (None, g') ->
  ∃ t,
    Destroy store logger guid w
      = (None,
         setTracker
           (setGarden (setRunningProcesses w (delete guid (runningProcesses w))) g')
           (delete guid (tracker w)),
         ELog (logEntry INFO (destroyLogger logger guid) "started" None [])
         :: t
         ++ [EGardenDestroy guid None;
             ETrackerDeinitialize guid;
             ELog (logEntry INFO (destroyLogger logger guid) "succeeded" None [])]).
Proof.
  intros Hdestroy.
  destruct (freeStepProcess_run store (destroyLogger logger guid) guid w)
    as (t & Hfree & Ht).
  exists t.
  unfold Destroy. fold (destroyLogger logger guid). st_unfold.
  rewrite Hfree. st_unfold. rewrite Hdestroy. st_unfold.
  reflexivity.
Qed.

(** C6, as amended. When destroying the host container fails, [Destroy]
    logs the host error and returns it, and the tracker is left as it
    was: no deinitialization is asked of it (the handle of the running
    process, if any, has been freed all the same). The entry of the
    tracker is removed when the host destroys the container. *)
Theorem Destroy_untracks_only_on_host_success store logger guid w :
  (∀ e g',
     client_Destroy guid (garden w) = (Some e, g') ->
     ∃ w' t,
       Destroy store logger guid w = (Some e, w', t)
       ∧ ELog (logEntry ERROR (destroyLogger logger guid)
                        "failed-to-destroy-garden-container" (Some e) []) ∈ t
       ∧ tracker w' = tracker w
       ∧ (ETrackerDeinitialize guid ∉ t)
       ∧ runningProcesses w' = delete guid (runningProcesses w))
  ∧ (∀ g',
     client_Destroy guid (garden w) = (None, g') ->
     ∃ w' t,
       Destroy store logger guid w = (None, w', t)
       ∧ tracker w' = delete guid (tracker w)
       ∧ tracker w' !! guid = None
       ∧ ETrackerDeinitialize guid ∈ t).
Proof.
  split.
  - intros e g' Hdestroy.
    destruct (Destroy_host_failure store logger guid w e g' Hdestroy)
      as (t & Hrun & Ht).
    eexists _, _. split; [exact Hrun|]. split.
    { apply elem_of_cons. right. apply elem_of_app. right.
      apply elem_of_cons. right. apply list_elem_of_singleton. reflexivity. }
    split; [reflexivity|]. split; [|reflexivity].
    rewrite elem_of_cons, elem_of_app, elem_of_cons, list_elem_of_singleton.
    intros [Heq|[Hin|[Heq|Heq]]]; try discriminate.
    rewrite List.Forall_forall in Ht. apply list_elem_of_In, Ht in Hin.
    destruct Hin as [(entry & Heq & _)|(p & Heq)]; discriminate.
  - intros g' Hdestroy.
    destruct (Destroy_host_success store logger guid w g' Hdestroy) as (t & Hrun).
    eexists _, _. split; [exact Hrun|]. split; [reflexivity|].
    split; [apply lookup_delete_eq|].
    apply elem_of_cons. right. apply elem_of_app. right.
    apply elem_of_cons. right. apply elem_of_cons. left. reflexivity.
Qed.

(** [List] when the listing RPC fails. *)
Lemma List_host_failure store tags w hs e g' :
  client_Containers (List_filter store tags) (garden w) = ((hs, Some e), g') ->
  List store tags w
    = (([], Some ErrContainerNotFound), setGarden w g',
       [EGardenContainers (List_filter store tags) (Some e)]).
Proof.
  intros Hlist. unfold List. st_unfold. rewrite Hlist. reflexivity.
Qed.

(** C7, as amended. When the container-list RPC of the host fails, with
    whatever error, [List] returns no record and the error
    [ErrContainerNotFound], which is of the NotFound kind; the error of
    the host is not passed on. *)
Theorem List_failure_is_not_found store tags w hs e g' :
  client_Containers (List_filter store tags) (garden w) = ((hs, Some e), g') ->
  List store tags w
    = (([], Some ErrContainerNotFound), setGarden w g',
       [EGardenContainers (List_filter store tags) (Some e)])
  ∧ kindOf ErrContainerNotFound = NotFound.
Proof.
  intros Hlist. split; [|reflexivity].
  exact (List_host_failure store tags w hs e g' Hlist).
Qed.

(** The loop of [List] asks the exchanger about every container, in
    order, and keeps the records that came without an error. *)
Lemma List_loop_reconstitute (hs : list H) (acc : list (Container ExecutorAction)) w :
  List_loop hs acc w
    = (acc ++ records (reconstitute hs (garden w)).1,
       setGarden w (reconstitute hs (garden w)).2,
       exchanges (reconstitute hs (garden w)).1).
Proof.
  revert acc w. induction hs as [|h hs IH]; intros acc w.
  - cbn. rewrite app_nil_r. by destruct w.
  - cbn [List_loop reconstitute]. st_unfold.
    destruct (exchanger_Garden2Executor h (garden w)) as [[c [e|]] g1] eqn:Hback;
      rewrite IH; cbn [garden setGarden];
      destruct (reconstitute hs g1) as [os g2]; cbn.
    + reflexivity.
    + by rewrite <- app_assoc.
Qed.

Lemma reconstitute_handles (hs : list H) (g : G) :
  map fst (reconstitute hs g).1 = hs.
Proof.
  revert g. induction hs as [|h hs IH]; intros g; [reflexivity|].
  cbn. destruct (exchanger_Garden2Executor h g) as [r g1].
  specialize (IH g1). destruct (reconstitute hs g1) as [os g2].
  cbn in *. by rewrite IH.
Qed.

Lemma records_complete (os : list (H * (Container ExecutorAction * option error))) h c :
  (h, (c, None)) ∈ os -> c ∈ records os.
Proof.
  intros Hin. unfold records. apply list_elem_of_omap.
  exists (h, (c, None)). split; [done|reflexivity].
Qed.

Lemma exchanges_no_log (os : list (H * (Container ExecutorAction * option error))) entry :
  ELog entry ∉ exchanges os.
Proof.
  unfold exchanges. rewrite list_elem_of_fmap. intros (o & Heq & _). discriminate.
Qed.

(** [List] when the listing RPC succeeds. *)
Lemma List_host_success store tags w hs g1 :
  client_Containers (List_filter store tags) (garden w) = ((hs, None), g1) ->
  List store tags w
    = ((records (reconstitute hs g1).1, None),
       setGarden w (reconstitute hs g1).2,
       EGardenContainers (List_filter store tags) None
       :: exchanges (reconstitute hs g1).1).
Proof.
  intros Hlist. unfold List. st_unfold. rewrite Hlist. st_unfold.
  rewrite List_loop_reconstitute. cbn [garden setGarden].
  cbn. by rewrite app_nil_r.
Qed.

(** C8, as amended. In a successful listing, [List] asks the exchanger
    about every host container in order; a container whose properties do
    not reconstitute is skipped without a word (the error of the exchanger
    is dropped: nothing is logged, nothing but the calls on the host and
    the exchanger is done, and the error returned is nil), and the
    listing is not aborted: the records of all the containers that did
    reconstitute are returned, in order. *)
Theorem List_skips_unparsable_containers store tags w hs g1 :
  client_Containers (List_filter store tags) (garden w) = ((hs, None), g1) ->
  ∃ os g2,
    reconstitute hs g1 = (os, g2)
    ∧ map fst os = hs
    ∧ List store tags w
        = ((records os, None), setGarden w g2,
           EGardenContainers (List_filter store tags) None :: exchanges os)
    ∧ (∀ h c, (h, (c, None)) ∈ os -> c ∈ records os)
    ∧ (∀ entry,
         ELog entry ∉ EGardenContainers (List_filter store tags) None
                      :: exchanges os).
Proof.
  intros Hlist.
  destruct (reconstitute hs g1) as [os g2] eqn:Hos.
  exists os, g2. split; [reflexivity|].
  split; [by rewrite <- (reconstitute_handles hs g1), Hos|].
  split.
  - rewrite (List_host_success store tags w hs g1 Hlist). by rewrite Hos.
  - split; [apply records_complete|].
    intros entry [Heq|Hin]%elem_of_cons; [discriminate|].
    by apply exchanges_no_log in Hin.
Qed.

(** *** The step process *)

Abbreviation OUTER_LOOP := (OUTER_LOOP Error).
Abbreviation stepProcess := (stepProcess Error json_Marshal).
Abbreviation stepProcess_complete := (stepProcess_complete json_Marshal).

(** The effects of a transition to Completed are calls on the host
    container and the exchanger, and the ContainerComplete event. *)
Lemma transitionToComplete_effects h result w terr w2 t2 :
  transitionToComplete h result w = (terr, w2, t2) ->
  Forall (fun x => (∃ name value err, x = ESetProperty h name value err)
                   ∨ (∃ err, x = EGarden2Executor h err)
                   ∨ (∃ c, x = EEmitEvent (ContainerCompleteEvent c))) t2.
Proof.
  unfold store.transitionToComplete. destruct (json_Marshal result) as [json [e0|]].
  { st_unfold. intros [= <- <- <-]. constructor. }
  st_unfold.
  destruct (container_SetProperty h ContainerResultProperty json (garden w))
    as [[e1|] g1]; st_unfold.
  { intros [= <- <- <-]. effects_shape. }
  destruct (container_SetProperty h ContainerStateProperty StateCompleted g1)
    as [[e2|] g2]; st_unfold.
  { intros [= <- <- <-]. cbn [app]. effects_shape. }
  destruct (exchanger_Garden2Executor h g2) as [[c [e3|]] g3]; st_unfold;
    intros [= <- <- <-]; cbn [app].
  - effects_shape.
  - effects_shape.
Qed.

(** What follows the loop receives nothing more. *)
Lemma stepProcess_complete_no_receive p logger result w r w' t x :
  stepProcess_complete p logger result w = (r, w', t) ->
  EReceive x ∉ t.
Proof.
  unfold store.stepProcess_complete. st_unfold.
  destruct (transitionToComplete (p_gardenContainer p) result w)
    as [[terr w2] t2] eqn:Htrans.
  apply transitionToComplete_effects in Htrans.
  rewrite List.Forall_forall in Htrans.
  assert (EReceive x ∉ t2) as Hnot.
  { intros Hin%list_elem_of_In%Htrans.
    destruct Hin as [(?&?&?&?)|[(?&?)|(?&?)]]; discriminate. }
  destruct terr; st_unfold; intros [= <- <- <-] Hin; trace_absent Hin.
Qed.

(** The loop receiving the readiness token while the host takes the
    write of the Running state and the record reconstitutes. *)
Lemma OUTER_LOOP_started_ok p logger sched signals result w g1 c g2 :
  container_SetProperty (p_gardenContainer p) ContainerStateProperty
                        StateRunning (garden w) = (None, g1) ->
  exchanger_Garden2Executor (p_gardenContainer p) g1 = ((c, None), g2) ->
  OUTER_LOOP p logger (RecvStarted :: sched) signals true result w
    = let '(r, w', t) :=
        OUTER_LOOP p logger sched signals false result (setGarden w g2) in
      (r, w',
       [EReceive RecvStarted;
        ELog (logEntry DEBUG logger "transitioning-to-running" None []);
        ESetProperty (p_gardenContainer p) ContainerStateProperty StateRunning None;
        EGarden2Executor (p_gardenContainer p) None;
        EEmitEvent (ContainerRunningEvent c);
        ELog (logEntry DEBUG logger "succeeded-transitioning-to-running" None [])]
       ++ t).
Proof.
  intros Hset Hback. cbn [store.OUTER_LOOP]. unfold transitionToRunning.
  st_unfold. rewrite Hset. st_unfold. rewrite Hback. st_unfold.
  destruct (OUTER_LOOP p logger sched signals false result (setGarden w g2))
    as [[r w'] t].
  reflexivity.
Qed.

(** The loop receiving the readiness token while the host refuses the
    write of the Running state: the loop is left at once. *)
Lemma OUTER_LOOP_started_failure p logger sched signals result w e g1 :
  container_SetProperty (p_gardenContainer p) ContainerStateProperty
                        StateRunning (garden w) = (Some e, g1) ->
  OUTER_LOOP p logger (RecvStarted :: sched) signals true result w
    = (Some (mkRunResult true (Error e)), setGarden w g1,
       [EReceive RecvStarted;
        ELog (logEntry DEBUG logger "transitioning-to-running" None []);
        ESetProperty (p_gardenContainer p) ContainerStateProperty StateRunning
                     (Some e);
        ELog (logEntry ERROR logger "failed-transitioning-to-running" (Some e) [])]).
Proof.
  intros Hset. cbn [store.OUTER_LOOP]. unfold transitionToRunning.
  st_unfold. rewrite Hset. st_unfold. reflexivity.
Qed.

(** No effect of a terminal transition occurs inside the loop. *)
Lemma OUTER_LOOP_no_completion p logger sched signals started result w r w' t :
  OUTER_LOOP p logger sched signals started result w = (r, w', t) ->
  forallb (fun x => negb (isCompletion x)) t = true.
Proof.
  revert signals started w r w' t.
  induction sched as [|x sched IH]; intros signals started w r w' t.
  - cbn. intros [= <- <- <-]. reflexivity.
  - destruct x as [| |err]; cbn [store.OUTER_LOOP].
    + destruct signals; [|apply IH]. st_unfold.
      destruct (p_monitorStep p); cbv beta iota;
        (destruct (OUTER_LOOP p logger sched false started result w)
           as [[r1 w1] t1] eqn:Hloop);
        apply IH in Hloop; intros [= <- <- <-]; cbn; exact Hloop.
    + destruct started; [|apply IH]. unfold transitionToRunning. st_unfold.
      destruct (container_SetProperty (p_gardenContainer p) ContainerStateProperty
                                      StateRunning (garden w)) as [[e1|] g1];
        st_unfold; [intros [= <- <- <-]; reflexivity|].
      destruct (exchanger_Garden2Executor (p_gardenContainer p) g1)
        as [[c [e2|]] g2]; st_unfold; [intros [= <- <- <-]; reflexivity|].
      destruct (OUTER_LOOP p logger sched signals false result (setGarden w g2))
        as [[r1 w1] t1] eqn:Hloop.
      apply IH in Hloop. intros [= <- <- <-]. cbn. exact Hloop.
    + st_unfold. destruct err; intros [= <- <- <-]; reflexivity.
Qed.

(** Signals received before anything else: the first one, if [signals]
    is not nil, cancels the steps and sets [signals] to nil; the others are
    never received. *)
Lemma OUTER_LOOP_signals p pre rest signals started result w :
  Forall (fun r => r = RecvSignal) pre ->
  OUTER_LOOP p (processLogger p) (pre ++ rest) signals started result w
    = let '(r, w', t) :=
        OUTER_LOOP p (processLogger p) rest
                   (signals && bool_decide (pre = [])) started result w in
      (r, w',
       (if signals then match pre with [] => [] | _ :: _ => signalEffects p end
        else []) ++ t).
Proof.
  intros Hpre. revert signals. induction Hpre as [|x pre -> _ IH]; intros signals.
  - cbn [app]. rewrite bool_decide_eq_true_2, andb_true_r by done.
    destruct (OUTER_LOOP p (processLogger p) rest signals started result w)
      as [[r w'] t].
    by destruct signals.
  - rewrite bool_decide_eq_false_2, andb_false_r by done.
    cbn [app store.OUTER_LOOP]. destruct signals.
    + st_unfold. unfold signalEffects.
      destruct (p_monitorStep p); cbv beta iota; rewrite (IH false);
        cbn [andb];
        destruct (OUTER_LOOP p (processLogger p) rest false started result w)
          as [[r w'] t]; reflexivity.
    + rewrite (IH false). cbn [andb]. reflexivity.
Qed.

(** The step process is its loop followed, when the loop is left, by the
    terminal transition. *)
Lemma stepProcess_unfold p sched w :
  stepProcess p sched w
    = let '(r, wl, tl) :=
        OUTER_LOOP p (processLogger p) sched true true
                   (mkRunResult false EmptyString) w in
      match r with
      | None => (None, wl, EGoPerform (p_step p) :: tl)
      | Some result =>
          let '(x, w2, tc) := stepProcess_complete p (processLogger p) result wl in
          (Some x, w2, EGoPerform (p_step p) :: tl ++ tc)
      end.
Proof.
  unfold store.stepProcess. fold (processLogger p). st_unfold.
  destruct (OUTER_LOOP p (processLogger p) sched true true
                       (mkRunResult false EmptyString) w) as [[[result|] wl] tl].
  - st_unfold.
    destruct (stepProcess_complete p (processLogger p) result wl) as [[x w2] tc].
    cbn. by rewrite app_nil_r.
  - cbn. by rewrite app_nil_r.
Qed.

(** [Run] on a record in Created, without a Monitor, whose host container
    is found. *)
Lemma Run_unmonitored store logger container w h g1 :
  client_Lookup (Guid container) (garden w) = ((h, None), g1) ->
  State container = StateCreated ->
  Monitor container = None ->
  ∃ step p,
    p = mkProcess (runLogger logger container) step None [tt] h (Guid container)
    ∧ Run store logger container w
      = (None,
         setRunningProcesses (setGarden w g1)
           (<[Guid container := p]> (runningProcesses w)),
         [ELog (logEntry INFO (runLogger logger container) "started" None []);
          EGardenLookup (Guid container) None;
          ELog (logEntry DEBUG (runLogger logger container)
                         "found-garden-container" None [])]
         ++ EChanSend :: EInvoke p
         :: [ELog (logEntry INFO (processLogger p) "started" None []);
             ELog (logEntry DEBUG (runLogger logger container)
                            "stored-step-process" None
                            [("num-step-processes",
                              DInt (Z.of_nat
                                      (size (<[Guid container := p]>
                                               (runningProcesses w)))))]);
             ELog (logEntry INFO (runLogger logger container) "finished" None [])]).
Proof.
  intros Hlookup Hstate Hmon. eexists _, _. split; [reflexivity|].
  unfold store.Run. st_unfold. rewrite Hlookup. st_unfold.
  rewrite decide_False by (intros Hne; by apply Hne).
  rewrite Hmon. unfold runStepProcess. st_unfold. reflexivity.
Qed.

(** C3, as amended. For every record in Created with no Monitor step
    whose host container is found, [Run] puts the readiness token in the
    buffered channel before it invokes the step process, which has no
    monitor step. If the [select] of that process receives this token
    before the completion of the step tree (signals apart, nothing comes
    before it), and the host takes the write of [state = Running] and the
    record reconstitutes, then the process persists Running and emits
    ContainerRunning first: no effect of a terminal transition occurs
    before that or in the rest of the loop, and when the loop is left the
    transition to Completed comes after it. (When the completion of the
    step tree is received first, or when the write fails, the process goes
    to Completed without having been Running.) *)
Theorem Run_unmonitored_is_ready_at_once store logger container w h g1 :
  client_Lookup (Guid container) (garden w) = ((h, None), g1) ->
  State container = StateCreated ->
  Monitor container = None ->
  ∃ p w1 t1 t2,
    Run store logger container w
      = (None, w1, t1 ++ EChanSend :: EInvoke p :: t2)
    ∧ Forall (fun x => (∃ entry, x = ELog entry)
                       ∨ x = EGardenLookup (Guid container) None) t1
    ∧ Forall (fun x => ∃ entry, x = ELog entry) t2
    ∧ p_hasStartedRunning p = [tt]
    ∧ p_monitorStep p = None
    ∧ p_gardenContainer p = h
    ∧ runningProcesses w1 !! Guid container = Some p
    ∧ ∀ w' pre sched g2 c g3,
        Forall (fun r => r = RecvSignal) pre ->
        container_SetProperty h ContainerStateProperty StateRunning (garden w')
          = (None, g2) ->
        exchanger_Garden2Executor h g2 = ((c, None), g3) ->
        ∃ r wl tl,
          OUTER_LOOP p (processLogger p) sched (bool_decide (pre = [])) false
                     (mkRunResult false EmptyString) (setGarden w' g3)
            = (r, wl, tl)
          ∧ forallb (fun x => negb (isCompletion x))
                    (beforeReadiness p pre ++ runningEffects p c ++ tl)
            = true
          ∧ match r with
            | None =>
                stepProcess p (pre ++ RecvStarted :: sched) w'
                  = (None, wl,
                     beforeReadiness p pre ++ runningEffects p c ++ tl)
            | Some result =>
                ∃ x w2 tc,
                  stepProcess_complete p (processLogger p) result wl = (x, w2, tc)
                  ∧ stepProcess p (pre ++ RecvStarted :: sched) w'
                    = (Some x, w2,
                       beforeReadiness p pre ++ runningEffects p c ++ tl ++ tc)
            end.
Proof.
  intros Hlookup Hstate Hmon.
  destruct (Run_unmonitored store logger container w h g1 Hlookup Hstate Hmon)
    as (step & p & -> & Hrun).
  eexists _, _, _, _. split; [exact Hrun|].
  split; [trace_shape|]. split; [trace_shape|].
  split; [reflexivity|]. split; [reflexivity|]. split; [reflexivity|].
  split; [apply lookup_insert_eq|].
  intros w' pre sched g2 c g3 Hpre Hset Hback.
  set (p := mkProcess (runLogger logger container) step None [tt] h (Guid container)).
  destruct (OUTER_LOOP p (processLogger p) sched (bool_decide (pre = [])) false
                       (mkRunResult false EmptyString) (setGarden w' g3))
    as [[r wl] tl] eqn:Hloop.
  exists r, wl, tl. split; [reflexivity|]. split.
  { assert (forallb (fun x => negb (isCompletion x)) (beforeReadiness p pre) = true)
      as Hbefore by (by destruct pre).
    rewrite !forallb_app, Hbefore.
    rewrite (OUTER_LOOP_no_completion _ _ _ _ _ _ _ _ _ _ Hloop).
    reflexivity. }
  rewrite stepProcess_unfold, (OUTER_LOOP_signals p pre _ true _ _ w' Hpre).
  cbn [andb].
  rewrite (OUTER_LOOP_started_ok p (processLogger p) sched _ _ w' g2 c g3 Hset Hback).
  rewrite Hloop. destruct r as [result|].
  - destruct (stepProcess_complete p (processLogger p) result wl) as [[x w2] tc].
    eexists _, _, _. split; [reflexivity|].
    unfold beforeReadiness. destruct pre; cbn [app];
      rewrite <- ?app_assoc; reflexivity.
  - unfold beforeReadiness. destruct pre; cbn [app];
      rewrite <- ?app_assoc; reflexivity.
Qed.

(** C4, as amended. If persisting [state = Running] to the host fails
    when the readiness token is received (signals apart, nothing is
    received before it), the step process records a failure result (failed,
    with the message of the host error as reason) and leaves its loop at
    once: the transition to Completed is made with that result, and the
    completion of the step tree is not consumed, whatever is still to be
    received. *)
Theorem running_failure_completes_at_once p pre sched w e g1 :
  Forall (fun r => r = RecvSignal) pre ->
  container_SetProperty (p_gardenContainer p) ContainerStateProperty
                        StateRunning (garden w) = (Some e, g1) ->
  ∃ r w' tc,
    stepProcess_complete p (processLogger p) (mkRunResult true (Error e))
                         (setGarden w g1) = (r, w', tc)
    ∧ stepProcess p (pre ++ RecvStarted :: sched) w
      = (Some r, w', beforeReadiness p pre ++ failedRunningEffects p e ++ tc)
    ∧ ∀ x, EReceive (RecvSeqComplete x)
           ∉ beforeReadiness p pre ++ failedRunningEffects p e ++ tc.
Proof.
  intros Hpre Hset.
  destruct (stepProcess_complete p (processLogger p) (mkRunResult true (Error e))
                                 (setGarden w g1)) as [[r w'] tc] eqn:Hcomplete.
  exists r, w', tc. split; [reflexivity|]. split.
  - rewrite stepProcess_unfold, (OUTER_LOOP_signals p pre _ true _ _ w Hpre).
    cbn [andb].
    rewrite (OUTER_LOOP_started_failure p (processLogger p) sched _ _ w e g1 Hset).
    rewrite Hcomplete. unfold beforeReadiness. destruct pre; cbn [app];
      rewrite <- ?app_assoc; reflexivity.
  - intros x Hin.
    pose proof (stepProcess_complete_no_receive _ _ _ _ _ _ _ (RecvSeqComplete x)
                  Hcomplete) as Hnot.
    unfold beforeReadiness, failedRunningEffects, signalEffects in Hin.
    destruct pre, (p_monitorStep p); trace_absent Hin.
Qed.

End Proofs.

(** *** The theorems at work on the scripted host *)

Import Fixtures.

Abbreviation FRun := (Run Fake.Error Fake.json_Marshal).
Abbreviation FstepProcess := (stepProcess Fake.Error Fake.json_Marshal).

(** C10 on a record in Running whose container the host does not hold. *)
Lemma Run_looks_up_before_validating_witness :
  State (record "guid-1" StateRunning) ≠ StateCreated
  ∧ FRun aStore aLogger (record "guid-1" StateRunning) (world emptyHost)
    = (Some GardenErrContainerNotFound, world emptyHost,
       [ELog (logEntry INFO (runLogger aLogger (record "guid-1" StateRunning))
                       "started" None []);
        EGardenLookup "guid-1" (Some GardenErrContainerNotFound);
        ELog (logEntry ERROR (runLogger aLogger (record "guid-1" StateRunning))
                       "garden-container-not-found" None []);
        ELog (logEntry INFO (runLogger aLogger (record "guid-1" StateRunning))
                       "finished" None [])]).
Proof.
  split; [discriminate|].
  apply (Run_looks_up_before_validating Fake.Error Fake.json_Marshal aStore
           aLogger (record "guid-1" StateRunning) (world emptyHost)
           EmptyString emptyHost).
  reflexivity.
Defined.

(** C1 as the specification states it fails on a record in Initializing
    whose container the host does not hold: [Run] returns the error of the
    lookup, not InvalidTransition, and attempts no transition. *)
Lemma Run_wrong_state_without_host_container :
  ¬ Run_rejects_every_wrong_state Fake.Error Fake.json_Marshal aStore aLogger
      (record "guid-1" StateInitializing) (world emptyHost).
Proof.
  intros Hclaim.
  destruct Hclaim as (w' & t & h & json & c & Hrun & _); [discriminate|].
  assert (client_Lookup "guid-1" emptyHost
          = ((EmptyString, Some GardenErrContainerNotFound), emptyHost))
    as Hlookup by reflexivity.
  rewrite (Run_lookup_failure Fake.Error Fake.json_Marshal aStore aLogger
             (record "guid-1" StateInitializing) (world emptyHost)
             _ _ _ Hlookup) in Hrun.
  discriminate Hrun.
Qed.

(** C1, as amended, on a record in Running whose container the host
    holds. *)
Lemma Run_rejects_wrong_state_when_found_witness :
  State (record "guid-1" StateRunning) ≠ StateCreated
  ∧ ∃ w2 t3 json c,
      FRun aStore aLogger (record "guid-1" StateRunning) (world healthyHost)
        = (Some ErrInvalidTransition, w2,
           [ELog (logEntry INFO (runLogger aLogger (record "guid-1" StateRunning))
                           "started" None []);
            EGardenLookup "guid-1" None;
            ELog (logEntry DEBUG (runLogger aLogger (record "guid-1" StateRunning))
                           "found-garden-container" None []);
            ELog (logEntry DEBUG (runLogger aLogger (record "guid-1" StateRunning))
                           "container-invalid-state-transition" None
                           [("current-state", DStr StateRunning);
                            ("required-state", DStr StateCreated)])]
           ++ [ESetProperty "guid-1" ContainerResultProperty json None;
               ESetProperty "guid-1" ContainerStateProperty StateCompleted None;
               EGarden2Executor "guid-1" None;
               EEmitEvent (ContainerCompleteEvent c)]
           ++ t3)
      ∧ State c = StateCompleted
      ∧ tracker w2 = ∅.
Proof.
  split; [discriminate|].
  assert (client_Lookup "guid-1" healthyHost = (("guid-1", None), healthyHost))
    as Hlookup by reflexivity.
  destruct (Run_rejects_wrong_state_when_found Fake.Error Fake.json_Marshal
              aStore aLogger (record "guid-1" StateRunning) (world healthyHost)
              _ _ Hlookup)
    as (terr & w2 & t2 & t1 & t3 & Htrans & Hrun & Ht1 & Ht3 & Htr & Hrp & Hok);
    [discriminate|].
  edestruct Hok as (Hterr & Hw2 & Ht2); [reflexivity..|].
  eexists w2, t3, _, _. split; [|split].
  - rewrite Hrun, Ht1, Ht2. reflexivity.
  - reflexivity.
  - exact Htr.
Defined.

(** C2 on a record in Created, on a record in Initializing, and on a
    record in Initializing when the host refuses to create. *)
Lemma Create_checks_state_then_creates_and_tracks_witness :
  (State (record "guid-1" StateCreated) ≠ StateInitializing
   ∧ Create aStore aLogger (record "guid-1" StateCreated) (world emptyHost)
     = ((emptyContainer, Some ErrInvalidTransition), world emptyHost, []))
  ∧ (State (record "guid-1" StateInitializing) = StateInitializing
     ∧ ∃ w',
         Create aStore aLogger (record "guid-1" StateInitializing) (world emptyHost)
           = ((record "guid-1" StateCreated, None), w',
              [ECreateInGarden (record "guid-1" StateCreated) None;
               ETrackerInitialize (record "guid-1" StateCreated)])
         ∧ tracker w' !! "guid-1" = Some (record "guid-1" StateCreated))
  ∧ (∃ w',
       Create aStore aLogger (record "guid-1" StateInitializing)
              (world refusingCreateHost)
         = ((emptyContainer, Some connectionRefused), w',
            [ECreateInGarden (record "guid-1" StateCreated)
                             (Some connectionRefused)])
       ∧ tracker w' = ∅).
Proof.
  split; [|split].
  - split; [discriminate|].
    apply (Create_checks_state_then_creates_and_tracks aStore aLogger
             (record "guid-1" StateCreated) (world emptyHost)).
    discriminate.
  - split; [reflexivity|].
    destruct (Create_checks_state_then_creates_and_tracks aStore aLogger
                (record "guid-1" StateInitializing) (world emptyHost))
      as (_ & Hinit).
    destruct (Hinit eq_refl) as (_ & Hok & _).
    edestruct Hok as (w' & Hrun & _ & _ & Hlookup & _); [reflexivity|].
    exists w'. split; [exact Hrun|exact Hlookup].
  - destruct (Create_checks_state_then_creates_and_tracks aStore aLogger
                (record "guid-1" StateInitializing) (world refusingCreateHost))
      as (_ & Hinit).
    destruct (Hinit eq_refl) as (_ & _ & Hfail).
    edestruct Hfail as (w' & Hrun & _ & Htracker & _); [reflexivity|].
    exists w'. split; [exact Hrun|exact Htracker].
Defined.

(** The step process of the fixtures is the one [Run] invokes, after it
    has sent the readiness token. *)
Example Run_invokes_unmonitoredProcess :
  ∃ w1 t1 t2,
    FRun aStore aLogger (record "guid-1" StateCreated) (world healthyHost)
      = (None, w1, t1 ++ EChanSend :: EInvoke unmonitoredProcess :: t2).
Proof.
  eexists _, [_; _; _], _. reflexivity.
Qed.

(** C3 as the specification states it fails twice over. On a host in
    good health, a step process whose [select] receives the completion of
    the step tree first goes to Completed without ever being Running. On
    a host that refuses the write of the Running state, the process that
    receives the readiness token first goes to Completed without having
    persisted Running or emitted ContainerRunning. *)
Lemma unmonitored_process_may_complete_without_running :
  ¬ unmonitored_runs_before_completing Fake.Error Fake.json_Marshal
      unmonitoredProcess [RecvSeqComplete None] (world healthyHost)
  ∧ ¬ unmonitored_runs_before_completing Fake.Error Fake.json_Marshal
        unmonitoredProcess [RecvStarted; RecvSeqComplete None]
        (world refusingWritesHost).
Proof.
  split; intros Hclaim.
  - edestruct (Hclaim eq_refl eq_refl) as (t1 & t2 & t3 & c & Heq & _);
      [vm_compute; reflexivity|].
    apply occurs_in_the_middle in Heq.
    cbv [p_gardenContainer unmonitoredProcess ContainerStateProperty
         StateRunning] in Heq.
    trace_absent Heq.
  - edestruct (Hclaim eq_refl eq_refl) as (t1 & t2 & t3 & c & Heq & _);
      [vm_compute; reflexivity|].
    apply occurs_in_the_middle in Heq.
    cbv [p_gardenContainer unmonitoredProcess ContainerStateProperty
         StateRunning] in Heq.
    trace_absent Heq.
Qed.

(** C3, as amended, on the unmonitored record of the fixtures and a host
    in good health: the process invoked holds the readiness token, and
    when it receives a signal, then the token, then the completion of the
    step tree, it is Running before it completes. *)
Lemma Run_unmonitored_is_ready_at_once_witness :
  State (record "guid-1" StateCreated) = StateCreated
  ∧ Monitor (record "guid-1" StateCreated) = None
  ∧ ∃ p w1 t1 t2,
      FRun aStore aLogger (record "guid-1" StateCreated) (world healthyHost)
        = (None, w1, t1 ++ EChanSend :: EInvoke p :: t2)
      ∧ p_hasStartedRunning p = [tt]
      ∧ runningProcesses w1 !! "guid-1" = Some p
      ∧ ∃ c x w2 tl tc,
          FstepProcess p [RecvSignal; RecvStarted; RecvSeqComplete None]
                       (world healthyHost)
            = (Some x, w2,
               beforeReadiness p [RecvSignal] ++ runningEffects p c ++ tl ++ tc)
          ∧ forallb (fun e => negb (isCompletion e))
                    (beforeReadiness p [RecvSignal] ++ runningEffects p c ++ tl)
            = true.
Proof.
  split; [reflexivity|]. split; [reflexivity|].
  assert (client_Lookup "guid-1" healthyHost = (("guid-1", None), healthyHost))
    as Hlookup by reflexivity.
  destruct (Run_unmonitored_is_ready_at_once Fake.Error Fake.json_Marshal
              aStore aLogger (record "guid-1" StateCreated) (world healthyHost)
              _ _ Hlookup eq_refl eq_refl)
    as (p & w1 & t1 & t2 & Hrun & _ & _ & Htoken & _ & Hhandle & Htable & Hprocess).
  exists p, w1, t1, t2. split; [exact Hrun|]. split; [exact Htoken|].
  split; [exact Htable|].
  edestruct (Hprocess (world healthyHost) [RecvSignal] [RecvSeqComplete None])
    as (r & wl & tl & Hloop & Hbefore & Hstep);
    [repeat constructor | reflexivity | reflexivity |].
  destruct r as [result|]; [|discriminate Hloop].
  destruct Hstep as (x & w2 & tc & _ & Hstep).
  eexists _, x, w2, tl, tc. split; [exact Hstep|exact Hbefore].
Defined.

(** C4 as the specification states it fails on a host that refuses the
    write of the Running state: the process goes to Completed and the
    completion of the step tree, though it is there to be received, is
    never consumed. *)
Lemma running_failure_leaves_completion_unconsumed :
  ¬ running_failure_awaits_completion Fake.Error Fake.json_Marshal
      unmonitoredProcess [RecvStarted; RecvSeqComplete None]
      (world refusingWritesHost).
Proof.
  intros Hclaim.
  edestruct (Hclaim connectionRefused healthyHost [] [RecvSeqComplete None] None)
    as (r & w' & t & t1 & t2 & x' & Hstep & Heq & _);
    [reflexivity | constructor | reflexivity | apply elem_of_cons; by left |].
  assert (t = (FstepProcess unmonitoredProcess [RecvStarted; RecvSeqComplete None]
                            (world refusingWritesHost)).2) as Ht
    by (by rewrite Hstep).
  vm_compute in Ht. rewrite Ht in Heq.
  apply occurs_in_the_middle in Heq. trace_absent Heq.
Qed.

(** C4, as amended, on that host, a signal being received before the
    readiness token. *)
Lemma running_failure_completes_at_once_witness :
  container_SetProperty "guid-1" ContainerStateProperty StateRunning
                        refusingWritesHost
    = (Some connectionRefused, healthyHost)
  ∧ ∃ r w' tc,
      FstepProcess unmonitoredProcess
                   [RecvSignal; RecvStarted; RecvSeqComplete None]
                   (world refusingWritesHost)
        = (Some r, w',
           beforeReadiness unmonitoredProcess [RecvSignal]
           ++ failedRunningEffects unmonitoredProcess connectionRefused ++ tc)
      ∧ ∀ x, EReceive (RecvSeqComplete x)
             ∉ beforeReadiness unmonitoredProcess [RecvSignal]
               ++ failedRunningEffects unmonitoredProcess connectionRefused
               ++ tc.
Proof.
  assert (container_SetProperty "guid-1" ContainerStateProperty StateRunning
                                refusingWritesHost
          = (Some connectionRefused, healthyHost)) as Hset by reflexivity.
  split; [exact Hset|].
  destruct (running_failure_completes_at_once Fake.Error Fake.json_Marshal
              unmonitoredProcess [RecvSignal] [RecvSeqComplete None]
              (world refusingWritesHost) _ _
              ltac:(repeat constructor) Hset)
    as (r & w' & tc & _ & Hstep & Hnever).
  exists r, w', tc. split; [exact Hstep|exact Hnever].
Defined.

(** C6 as the specification states it fails on a host that refuses to
    destroy: the record of the container is still in the tracker. *)
Lemma Destroy_failure_leaves_the_container_tracked :
  ¬ Destroy_untracks_on_host_failure aStore aLogger "guid-1"
      (trackingWorld refusingDestroyHost).
Proof.
  intros Hclaim.
  assert (client_Destroy "guid-1" refusingDestroyHost
          = (Some connectionRefused, refusingDestroyHost)) as Hdestroy
    by reflexivity.
  destruct (Hclaim _ _ Hdestroy) as (r & w' & t & entry & Hrun & _ & _ & Htracker).
  destruct (Destroy_host_failure aStore aLogger "guid-1"
              (trackingWorld refusingDestroyHost) _ _ Hdestroy)
    as (t0 & Hrun' & _).
  rewrite Hrun' in Hrun. injection Hrun as _ <- _.
  cbn in Htracker. rewrite lookup_singleton_eq in Htracker. discriminate.
Qed.

(** C6, as amended, on that host and on a host in good health. *)
Lemma Destroy_untracks_only_on_host_success_witness :
  (client_Destroy "guid-1" refusingDestroyHost
     = (Some connectionRefused, refusingDestroyHost)
   ∧ ∃ w' t,
       Destroy aStore aLogger "guid-1" (trackingWorld refusingDestroyHost)
         = (Some connectionRefused, w', t)
       ∧ tracker w' !! "guid-1" = Some (record "guid-1" StateCreated))
  ∧ (client_Destroy "guid-1" healthyHost = (None, emptyHost)
     ∧ ∃ w' t,
         Destroy aStore aLogger "guid-1" (trackingWorld healthyHost) = (None, w', t)
         ∧ tracker w' !! "guid-1" = None).
Proof.
  assert (client_Destroy "guid-1" refusingDestroyHost
          = (Some connectionRefused, refusingDestroyHost)) as Hfail
    by reflexivity.
  assert (client_Destroy "guid-1" healthyHost = (None, emptyHost)) as Hok
    by reflexivity.
  split; (split; [done|]).
  - destruct (Destroy_untracks_only_on_host_success aStore aLogger "guid-1"
                (trackingWorld refusingDestroyHost)) as (Hfailure & _).
    destruct (Hfailure _ _ Hfail) as (w' & t & Hrun & _ & Htracker & _).
    exists w', t. split; [exact Hrun|].
    rewrite Htracker. apply lookup_singleton_eq.
  - destruct (Destroy_untracks_only_on_host_success aStore aLogger "guid-1"
                (trackingWorld healthyHost)) as (_ & Hsuccess).
    destruct (Hsuccess _ Hok) as (w' & t & Hrun & _ & Htracker & _).
    exists w', t. split; [exact Hrun|exact Htracker].
Defined.

(** C7 as the specification states it fails on a host whose listing RPC
    refuses the connection: the error [List] returns is NotFound. *)
Lemma List_failure_is_reported_as_not_found :
  ¬ List_failure_is_host_unavailable aStore ∅ (world refusingListHost).
Proof.
  intros Hclaim.
  assert (client_Containers (List_filter aStore ∅) refusingListHost
          = (([], Some connectionRefused), refusingListHost)) as Hlist
    by reflexivity.
  destruct (Hclaim _ _ _ Hlist) as (r & e' & w' & t & Hrun & Hkind).
  rewrite (List_host_failure aStore ∅ (world refusingListHost) _ _ _ Hlist) in Hrun.
  injection Hrun as _ <- _ _. discriminate Hkind.
Qed.

(** C7, as amended, on that host. *)
Lemma List_failure_is_not_found_witness :
  client_Containers (List_filter aStore ∅) refusingListHost
    = (([], Some connectionRefused), refusingListHost)
  ∧ List aStore ∅ (world refusingListHost)
    = (([], Some ErrContainerNotFound), world refusingListHost,
       [EGardenContainers (List_filter aStore ∅) (Some connectionRefused)])
  ∧ kindOf connectionRefused = HostUnavailable.
Proof.
  assert (client_Containers (List_filter aStore ∅) refusingListHost
          = (([], Some connectionRefused), refusingListHost)) as Hlist
    by reflexivity.
  split; [exact Hlist|]. split; [|reflexivity].
  apply (List_failure_is_not_found aStore ∅ (world refusingListHost) _ _ _ Hlist).
Defined.

(** C8 as the specification states it fails on a host one of whose
    containers does not reconstitute: the listing says nothing of it. *)
Lemma List_is_silent_about_unparsable_containers :
  ¬ List_reports_parse_errors aStore ∅ (world mixedHost).
Proof.
  intros Hclaim.
  assert (client_Containers (List_filter aStore ∅) mixedHost
          = ((["guid-1"; "guid-2"; "guid-3"], None), mixedHost)) as Hlist
    by reflexivity.
  pose proof (List_host_success aStore ∅ (world mixedHost) _ _ Hlist) as Hrun.
  destruct (Hclaim _ _ _ _ "guid-2" (errors_New "missing properties") Hrun)
    as (_ & entry & Hin & _).
  - apply elem_of_cons. right.
    apply elem_of_cons. right. apply elem_of_cons. left. reflexivity.
  - apply elem_of_cons in Hin as [Heq|Hin]; [discriminate|].
    by apply exchanges_no_log in Hin.
Qed.

(** C8, as amended, on that host: the first and the third container are
    returned. *)
Lemma List_skips_unparsable_containers_witness :
  client_Containers (List_filter aStore ∅) mixedHost
    = ((["guid-1"; "guid-2"; "guid-3"], None), mixedHost)
  ∧ ∃ w' t,
      List aStore ∅ (world mixedHost)
        = (([(Fake.Garden2Executor "guid-1" mixedHost).1.1;
             (Fake.Garden2Executor "guid-3" mixedHost).1.1], None), w', t)
      ∧ ∀ entry, ELog entry ∉ t.
Proof.
  assert (client_Containers (List_filter aStore ∅) mixedHost
          = ((["guid-1"; "guid-2"; "guid-3"], None), mixedHost)) as Hlist
    by reflexivity.
  split; [exact Hlist|].
  destruct (List_skips_unparsable_containers aStore ∅ (world mixedHost) _ _ Hlist)
    as (os & g2 & Hos & _ & Hrun & _ & Hsilent).
  eexists _, _. split; [|exact Hsilent].
  rewrite Hrun. injection Hos as <- _. reflexivity.
Defined.

End StoreProofs.

(** ** Properties of [ExecuteAction] *)

Module ExecuteActionProofs.
Import execute_action.

Section Proofs.

Context (Error : error -> string).

Abbreviation Perform := (Perform Error).
Abbreviation step := (step Error).
Abbreviation steps := (steps Error).

Lemma run_noop (s : Sys) : run (ret tt) (status s) s = s.
Proof. destruct s as [r st t]. unfold run, ret. cbn. by rewrite app_nil_r. Qed.

(** Calls of [Cancel] and [Cleanup] leave an action as it is. *)
Lemma steps_cancel_cleanup (s : Sys) (inputs : list Input) :
  forallb isCancelOrCleanup inputs = true -> steps s inputs = s.
Proof.
  revert s. induction inputs as [|i inputs IH]; intros s Hall; [reflexivity|].
  cbn in Hall. apply andb_true_iff in Hall as [Hi Hall].
  unfold execute_action.steps. cbn [fold_left].
  assert (step s i = s) as ->.
  { destruct i; try discriminate; apply run_noop. }
  by apply IH.
Qed.

(** C5. Whatever the inner action runner delivers, [Perform] sends nil
    on its result channel, once, as the last thing it does. When the
    runner delivered a nil error the [RunOnce] record is left as it is;
    when it delivered an error, [Perform] first logs it and sets
    [Failed = true] and [FailureReason] to the message of that error on
    the record, and then sends nil. *)
Theorem Perform_sends_nil_whatever_the_outcome (r : RunOnce) :
  Perform None r
    = (tt, r, [EActionRunner AR_Perform; EReceive None; ESend None])
  ∧ (∀ e,
       Perform (Some e) r
         = (tt, setFailureReason (setFailed r true) (Error e),
            [EActionRunner AR_Perform;
             EReceive (Some e);
             EErrord [("runonce-guid", Guid r);
                      ("handle", ContainerHandle r);
                      ("error", Error e)]
                     "runonce.actions.failed";
             EStoreFailed true;
             EStoreFailureReason (Error e);
             ESend None])
       ∧ Failed (setFailureReason (setFailed r true) (Error e)) = true
       ∧ FailureReason (setFailureReason (setFailed r true) (Error e)) = Error e)
  ∧ (∀ inner, ∃ r' t,
       Perform inner r = (tt, r', t ++ [ESend None])
       ∧ ∀ v, ESend v ∉ t).
Proof.
  split; [reflexivity|]. split; [intros e; repeat split|].
  intros [e|]; eexists _, _.
  - split; [by instantiate (1 := [_; _; _; _; _])|].
    intros v Hin. repeat (apply elem_of_cons in Hin as [Hin|Hin]; [discriminate|]).
    by apply elem_of_nil in Hin.
  - split; [by instantiate (1 := [_; _])|].
    intros v Hin. repeat (apply elem_of_cons in Hin as [Hin|Hin]; [discriminate|]).
    by apply elem_of_nil in Hin.
Qed.

(** C9. [Cancel] and [Cleanup] are no-ops: they change nothing and call
    nothing, so no cancellation reaches the inner action runner. Hence a
    [Perform] that is blocked on the result of the inner runner is still
    blocked, with nothing sent and nothing more done, after any number of
    calls of [Cancel] and [Cleanup]; it goes on, and sends on its result
    channel, when the inner runner delivers its result. *)
Theorem Cancel_and_Cleanup_do_nothing :
  (∀ r : RunOnce, Cancel r = (tt, r, []) ∧ Cleanup r = (tt, r, []))
  ∧ (∀ (s : Sys) (inputs : list Input) (err : option error),
       status s = Blocked ->
       forallb isCancelOrCleanup inputs = true ->
       steps s inputs = s
       ∧ status (steps s inputs) = Blocked
       ∧ trace (steps s inputs) = trace s
       ∧ status (step (steps s inputs) (Deliver err)) = Returned
       ∧ ∃ r' t,
           Perform_resume Error err (runOnce s) = (tt, r', t ++ [ESend None])
           ∧ trace (step (steps s inputs) (Deliver err))
             = trace s ++ t ++ [ESend None]
           ∧ (∀ m, EActionRunner m ∉ t)).
Proof.
  split; [intros r; split; reflexivity|].
  intros s inputs err Hblocked Hall.
  rewrite (steps_cancel_cleanup s inputs Hall).
  split; [reflexivity|]. split; [exact Hblocked|]. split; [reflexivity|].
  unfold execute_action.step. rewrite Hblocked.
  split; [unfold run; by destruct (Perform_resume Error err (runOnce s)) as [[[] ?] ?]|].
  destruct err as [e|]; eexists _, _.
  - split; [by instantiate (1 := [_; _; _; _])|]. split; [reflexivity|].
    intros m Hin. repeat (apply elem_of_cons in Hin as [Hin|Hin]; [discriminate|]).
    by apply elem_of_nil in Hin.
  - split; [by instantiate (1 := [_])|]. split; [reflexivity|].
    intros m Hin. repeat (apply elem_of_cons in Hin as [Hin|Hin]; [discriminate|]).
    by apply elem_of_nil in Hin.
Qed.

End Proofs.

(** C9 on a [Perform] that is blocked while [Cancel], [Cleanup] and
    [Cancel] again are called, after which the inner runner delivers an
    error. *)
Lemma Cancel_and_Cleanup_do_nothing_witness :
  status (mkSys Fixtures.aRunOnce Blocked [EActionRunner AR_Perform]) = Blocked
  ∧ forallb isCancelOrCleanup [CallCancel; CallCleanup; CallCancel] = true
  ∧ steps store.Fake.Error
          (mkSys Fixtures.aRunOnce Blocked [EActionRunner AR_Perform])
          [CallCancel; CallCleanup; CallCancel]
    = mkSys Fixtures.aRunOnce Blocked [EActionRunner AR_Perform]
  ∧ status (step store.Fake.Error
                 (steps store.Fake.Error
                        (mkSys Fixtures.aRunOnce Blocked [EActionRunner AR_Perform])
                        [CallCancel; CallCleanup; CallCancel])
                 (Deliver (Some Fixtures.connectionRefused)))
    = Returned.
Proof.
  split; [reflexivity|]. split; [reflexivity|].
  destruct (Cancel_and_Cleanup_do_nothing store.Fake.Error) as (_ & Hblocked).
  destruct (Hblocked (mkSys Fixtures.aRunOnce Blocked [EActionRunner AR_Perform])
                     [CallCancel; CallCleanup; CallCancel]
                     (Some Fixtures.connectionRefused) eq_refl eq_refl)
    as (Hsame & _ & _ & Hreturned & _).
  split; [exact Hsame|exact Hreturned].
Defined.

End ExecuteActionProofs.

(** ** Further properties of the container store *)

Module StoreExtras.
Import store store_traces StoreProofs.

Section Proofs.

Context {ExecutorAction G H : Type}
        `{!GardenClient G H, !Exchanger ExecutorAction G H}
        (Error : error -> string)
        (json_Marshal : ContainerRunResult -> string * option error).

Implicit Types (store : GardenStore) (logger : Logger)
  (container : Container ExecutorAction) (w : World ExecutorAction G H)
  (h : H) (e : error) (p : Process ExecutorAction H)
  (t : list (Effect ExecutorAction H)).

Abbreviation Run := (Run Error json_Marshal).
Abbreviation transitionToComplete := (transitionToComplete json_Marshal).
Abbreviation OUTER_LOOP := (OUTER_LOOP Error).
Abbreviation stepProcess := (stepProcess Error json_Marshal).
Abbreviation stepProcess_complete := (stepProcess_complete json_Marshal).

(** *** The filter of [List] *)

Lemma tag_property_not_owner (k : string) :
  tagPropertyPrefix +:+ k ≠ ContainerOwnerProperty.
Proof. discriminate. Qed.

Lemma tag_property_inj (k1 k2 : string) :
  tagPropertyPrefix +:+ k1 = tagPropertyPrefix +:+ k2 -> k1 = k2.
Proof. intros Heq. by injection Heq. Qed.

(** X1. The filter that [List] sends to the host holds the owner
    property with the owner name of the store, which no tag can replace,
    and for every tag [k] of the caller the property [tag:k] with the
    value of the tag; it holds nothing else. The order in which the tags
    are visited does not matter. *)
Theorem List_filter_is_owner_and_prefixed_tags store (tags : gmap string string) :
  List_filter store tags !! ContainerOwnerProperty
    = Some (containerOwnerName store)
  ∧ (∀ k, List_filter store tags !! (tagPropertyPrefix +:+ k) = tags !! k)
  ∧ (∀ name,
       name ≠ ContainerOwnerProperty ->
       (∀ k, name ≠ tagPropertyPrefix +:+ k) ->
       List_filter store tags !! name = None).
Proof.
  unfold List_filter.
  apply (map_fold_weak_ind
           (fun (filter tags : gmap string string) =>
              filter !! ContainerOwnerProperty = Some (containerOwnerName store)
              ∧ (∀ k, filter !! (tagPropertyPrefix +:+ k) = tags !! k)
              ∧ (∀ name,
                   name ≠ ContainerOwnerProperty ->
                   (∀ k, name ≠ tagPropertyPrefix +:+ k) ->
                   filter !! name = None))).
  - split; [apply lookup_singleton_eq|]. split.
    + intros k. rewrite lookup_empty.
      apply lookup_singleton_ne. apply not_eq_sym, tag_property_not_owner.
    + intros name Hname _. by apply lookup_singleton_ne.
  - intros i x m r Hfresh (Howner & Htags & Hother). split; [|split].
    + rewrite lookup_insert_ne by apply tag_property_not_owner. exact Howner.
    + intros k. destruct (decide (i = k)) as [->|Hne].
      * by rewrite !lookup_insert_eq.
      * rewrite !lookup_insert_ne; [apply Htags|done|].
        intros Heq. by apply Hne, tag_property_inj.
    + intros name Hname Hnotag. rewrite lookup_insert_ne by (apply not_eq_sym, Hnotag).
      by apply Hother.
Qed.

(** *** [Run] on a record in Created *)

(** [Run] on a record in Created whose host container is found: the
    process it invokes and what it does. *)
Lemma Run_created store logger container w h g1 :
  client_Lookup (Guid container) (garden w) = ((h, None), g1) ->
  State container = StateCreated ->
  ∃ p,
    Run store logger container w
      = (None,
         setRunningProcesses (setGarden w g1)
           (<[Guid container := p]> (runningProcesses w)),
         [ELog (logEntry INFO (runLogger logger container) "started" None []);
          EGardenLookup (Guid container) None;
          ELog (logEntry DEBUG (runLogger logger container)
                         "found-garden-container" None [])]
         ++ match Monitor container with
            | Some _ => []
            | None => [EChanSend]
            end
         ++ [EInvoke p;
             ELog (logEntry INFO (processLogger p) "started" None []);
             ELog (logEntry DEBUG (runLogger logger container)
                            "stored-step-process" None
                            [("num-step-processes",
                              DInt (Z.of_nat
                                      (size (<[Guid container := p]>
                                               (runningProcesses w)))))]);
             ELog (logEntry INFO (runLogger logger container) "finished" None [])])
    ∧ p_logger p = runLogger logger container
    ∧ p_gardenContainer p = h
    ∧ p_guid p = Guid container
    ∧ p_monitorStep p
      = match Monitor container with
        | Some _ =>
            Some (NewMonitor
                    (StepFor (log_streamer_New (LogGuid (Log container))
                                               (SourceName (Log container))
                                               (Index (Log container)))
                             (Monitor container) h (ExternalIP container)
                             (Ports container) (runLogger logger container))
                    (Session (runLogger logger container) "monitor" [])
                    (wrap64 (wrap64 (StartTimeout container) * Second))
                    (healthyMonitoringInterval store)
                    (unhealthyMonitoringInterval store))
        | None => None
        end
    ∧ p_hasStartedRunning p
      = match Monitor container with Some _ => [] | None => [tt] end
    ∧ p_step p
      = NewSerial
          (match Setup container with
           | Some _ =>
               [StepFor (log_streamer_New (LogGuid (Log container))
                                          (SourceName (Log container))
                                          (Index (Log container)))
                        (Setup container) h (ExternalIP container)
                        (Ports container) (runLogger logger container)]
           | None => []
           end
           ++ [NewCodependent
                 (StepFor (log_streamer_New (LogGuid (Log container))
                                            (SourceName (Log container))
                                            (Index (Log container)))
                          (Action container) h (ExternalIP container)
                          (Ports container) (runLogger logger container)
                  :: match p_monitorStep p with
                     | Some monitorStep => [monitorStep]
                     | None => []
                     end)]).
Proof.
  intros Hlookup Hstate.
  unfold store.Run. st_unfold. rewrite Hlookup. st_unfold.
  rewrite decide_False by (intros Hne; by apply Hne).
  fold (runLogger logger container).
  destruct (Monitor container) as [monitor|] eqn:Hmon;
    destruct (Setup container) as [setup|] eqn:Hsetup;
    unfold runStepProcess; st_unfold;
    lazymatch goal with
    | |- ∃ p, (_, setRunningProcesses _ (<[_ := ?q]> _), _) = _ ∧ _ => exists q
    end;
    (split; [reflexivity|]); cbn; repeat split; reflexivity.
Qed.

(** X2. [Run] on a record in Created whose host container is found
    builds the step tree Serial(Setup?, Codependent(Action, Monitor?)):
    the setup step is there exactly when the record has a Setup, the
    monitor step exactly when it has a Monitor, and that monitor step is
    the one the process cancels on a signal. The readiness token is sent,
    and is in the channel of the process, exactly when there is no
    Monitor. *)
Theorem Run_builds_the_step_tree store logger container w h g1 :
  client_Lookup (Guid container) (garden w) = ((h, None), g1) ->
  State container = StateCreated ->
  ∃ p w' t stepFor,
    Run store logger container w = (None, w', t)
    ∧ EInvoke p ∈ t
    ∧ stepFor
      = (fun action =>
           StepFor (log_streamer_New (LogGuid (Log container))
                                     (SourceName (Log container))
                                     (Index (Log container)))
                   action h (ExternalIP container) (Ports container)
                   (runLogger logger container))
    ∧ p_step p
      = NewSerial
          (match Setup container with
           | Some _ => [stepFor (Setup container)]
           | None => []
           end
           ++ [NewCodependent
                 (stepFor (Action container)
                  :: match p_monitorStep p with
                     | Some monitorStep => [monitorStep]
                     | None => []
                     end)])
    ∧ (p_monitorStep p = None <-> Monitor container = None)
    ∧ (∀ monitorStep,
         p_monitorStep p = Some monitorStep ->
         ∃ startTimeout,
           monitorStep
           = NewMonitor (stepFor (Monitor container))
                        (Session (runLogger logger container) "monitor" [])
                        startTimeout (healthyMonitoringInterval store)
                        (unhealthyMonitoringInterval store))
    ∧ (p_hasStartedRunning p = [tt] <-> Monitor container = None)
    ∧ (p_hasStartedRunning p = [] <-> Monitor container ≠ None)
    ∧ (EChanSend ∈ t <-> Monitor container = None).
Proof.
  intros Hlookup Hstate.
  destruct (Run_created store logger container w h g1 Hlookup Hstate)
    as (p & Hrun & _ & _ & _ & Hmonitor & Htoken & Hstep).
  eexists p, _, _, _. split; [exact Hrun|].
  split.
  { apply elem_of_app. right. apply elem_of_app. right.
    apply elem_of_cons. by left. }
  split; [reflexivity|]. split; [exact Hstep|].
  rewrite Hmonitor, Htoken.
  destruct (Monitor container) as [monitor|]; repeat split; try done.
  - intros monitorStep [= <-]. eauto.
  - intros Hin. trace_absent Hin.
  - intros _. apply elem_of_app. right. apply elem_of_cons. by left.
Qed.

(** X3. [Run] on a record in Created whose host container is found
    stores the handle of the process it invokes under the guid of the
    record, in place of any handle that was there: the earlier process is
    not signalled. The handles of the other guids, the tracker, and the
    properties of the host container are left alone: nothing is written
    to the host and no event is emitted by [Run] itself. *)
Theorem Run_stores_the_handle_of_its_process store logger container w h g1 :
  client_Lookup (Guid container) (garden w) = ((h, None), g1) ->
  State container = StateCreated ->
  ∃ p w' t,
    Run store logger container w = (None, w', t)
    ∧ EInvoke p ∈ t
    ∧ runningProcesses w' !! Guid container = Some p
    ∧ (∀ guid, guid ≠ Guid container ->
               runningProcesses w' !! guid = runningProcesses w !! guid)
    ∧ tracker w' = tracker w
    ∧ garden w' = g1
    ∧ Forall (fun x => (∃ entry, x = ELog entry)
                       ∨ x = EGardenLookup (Guid container) None
                       ∨ x = EChanSend
                       ∨ x = EInvoke p) t.
Proof.
  intros Hlookup Hstate.
  destruct (Run_created store logger container w h g1 Hlookup Hstate)
    as (p & Hrun & _).
  eexists p, _, _. split; [exact Hrun|].
  split.
  { apply elem_of_app. right. apply elem_of_app. right.
    apply elem_of_cons. by left. }
  split; [apply lookup_insert_eq|].
  split; [intros guid Hne; by apply lookup_insert_ne|].
  split; [reflexivity|]. split; [reflexivity|].
  destruct (Monitor container); cbn [app]; effects_shape.
Qed.

(** X4. The start timeout that [Run] hands to the monitor step is the
    [StartTimeout] of the record, in seconds, turned into nanoseconds: it
    is exact, and zero for a zero timeout, as long as the timeout is at
    most 9223372036 seconds; from 9223372037 seconds on the 64-bit
    multiplication wraps around, and at 9223372037 it gives a negative
    duration. *)
Theorem Run_start_timeout_in_nanoseconds store logger container w h g1 monitor :
  client_Lookup (Guid container) (garden w) = ((h, None), g1) ->
  State container = StateCreated ->
  Monitor container = Some monitor ->
  ∃ p w' t monitored monitorLogger startTimeout,
    Run store logger container w = (None, w', t)
    ∧ EInvoke p ∈ t
    ∧ p_monitorStep p
      = Some (NewMonitor monitored monitorLogger startTimeout
                         (healthyMonitoringInterval store)
                         (unhealthyMonitoringInterval store))
    ∧ startTimeout = wrap64 (wrap64 (StartTimeout container) * Second)
    ∧ (0 <= StartTimeout container <= 9223372036 ->
       startTimeout = StartTimeout container * 1000000000)
    ∧ (StartTimeout container = 9223372037 -> startTimeout < 0).
Proof.
  intros Hlookup Hstate Hmon.
  destruct (Run_created store logger container w h g1 Hlookup Hstate)
    as (p & Hrun & _ & _ & _ & Hmonitor & _).
  rewrite Hmon in Hmonitor.
  eexists p, _, _, _, _, _. split; [exact Hrun|].
  split.
  { apply elem_of_app. right. apply elem_of_app. right.
    apply elem_of_cons. by left. }
  split; [exact Hmonitor|]. split; [reflexivity|]. split.
  - intros Hrange. unfold wrap64, Second.
    rewrite (Z.mod_small (StartTimeout container + 2 ^ 63)) by lia.
    replace (StartTimeout container + 2 ^ 63 - 2 ^ 63) with (StartTimeout container)
      by lia.
    rewrite Z.mod_small by lia. lia.
  - intros ->. reflexivity.
Qed.

(** *** The transitions *)

(** X5. [transitionToComplete] stops at the first thing that fails and
    returns its error: the result is written first, the Completed state
    is written only once the result is stored, the record is read back
    only once both are written, and ContainerComplete is emitted only
    then. So the event is emitted exactly when nil is returned, and a
    host that refuses the write of the result is never told that the
    container is completed. *)
Theorem transitionToComplete_stops_at_the_first_failure h result w terr w2 t :
  transitionToComplete h result w = (terr, w2, t) ->
  (∃ json merr,
     json_Marshal result = (json, merr)
     ∧ ((∃ e, merr = Some e ∧ terr = Some e ∧ t = [] ∧ w2 = w)
        ∨ (merr = None
           ∧ ((∃ e, terr = Some e
                    ∧ t = [ESetProperty h ContainerResultProperty json (Some e)])
              ∨ (∃ e, terr = Some e
                      ∧ t = [ESetProperty h ContainerResultProperty json None;
                             ESetProperty h ContainerStateProperty
                                          StateCompleted (Some e)])
              ∨ (∃ e, terr = Some e
                      ∧ t = [ESetProperty h ContainerResultProperty json None;
                             ESetProperty h ContainerStateProperty
                                          StateCompleted None;
                             EGarden2Executor h (Some e)])
              ∨ (∃ c, terr = None
                      ∧ t = [ESetProperty h ContainerResultProperty json None;
                             ESetProperty h ContainerStateProperty
                                          StateCompleted None;
                             EGarden2Executor h None;
                             EEmitEvent (ContainerCompleteEvent c)])))))
  ∧ (terr = None <-> ∃ c, EEmitEvent (ContainerCompleteEvent c) ∈ t).
Proof.
  unfold store.transitionToComplete.
  destruct (json_Marshal result) as [json [e0|]] eqn:Hjson.
  { st_unfold. intros [= <- <- <-]. split.
    - exists json, (Some e0). split; [done|]. left. eauto.
    - split; [done|]. intros (c & Hin). trace_absent Hin. }
  st_unfold.
  destruct (container_SetProperty h ContainerResultProperty json (garden w))
    as [[e1|] g1]; st_unfold.
  { intros [= <- <- <-]. split.
    - exists json, None. split; [done|]. right. split; [done|]. left. eauto.
    - split; [done|]. intros (c & Hin). trace_absent Hin. }
  destruct (container_SetProperty h ContainerStateProperty StateCompleted g1)
    as [[e2|] g2]; st_unfold.
  { intros [= <- <- <-]. split.
    - exists json, None. split; [done|]. right. split; [done|].
      right. left. eauto.
    - split; [done|]. intros (c & Hin). trace_absent Hin. }
  destruct (exchanger_Garden2Executor h g2) as [[c [e3|]] g3]; st_unfold;
    intros [= <- <- <-]; cbn [app]; split.
  - exists json, None. split; [done|]. right. split; [done|].
    right. right. left. eauto.
  - split; [done|]. intros (c' & Hin). trace_absent Hin.
  - exists json, None. split; [done|]. right. split; [done|].
    right. right. right. eauto.
  - split; [|done]. intros _. exists c.
    do 3 (apply elem_of_cons; right). apply elem_of_cons. by left.
Qed.

(** X6. [transitionToRunning] stops at the first thing that fails and
    returns its error: ContainerRunning is emitted only once the Running
    state is written and the record is read back, which is exactly when
    nil is returned; it writes nothing but the state property and leaves
    the tracker and the table of running processes alone. *)
Theorem transitionToRunning_stops_at_the_first_failure h w terr w2 t :
  transitionToRunning h w = (terr, w2, t) ->
  ((∃ e, terr = Some e
         ∧ t = [ESetProperty h ContainerStateProperty StateRunning (Some e)])
   ∨ (∃ e, terr = Some e
           ∧ t = [ESetProperty h ContainerStateProperty StateRunning None;
                  EGarden2Executor h (Some e)])
   ∨ (∃ c, terr = None
           ∧ t = [ESetProperty h ContainerStateProperty StateRunning None;
                  EGarden2Executor h None;
                  EEmitEvent (ContainerRunningEvent c)]))
  ∧ (terr = None <-> ∃ c, EEmitEvent (ContainerRunningEvent c) ∈ t)
  ∧ tracker w2 = tracker w
  ∧ runningProcesses w2 = runningProcesses w.
Proof.
  intros Hrun.
  pose proof (transitionToRunning_world h w terr w2 t Hrun) as Hw.
  split; [|split; [|by rewrite Hw]].
  - revert Hrun. unfold transitionToRunning. st_unfold.
    destruct (container_SetProperty h ContainerStateProperty StateRunning (garden w))
      as [[e1|] g1]; st_unfold; [intros [= <- <- <-]; left; eauto|].
    destruct (exchanger_Garden2Executor h g1) as [[c [e3|]] g3]; st_unfold;
      intros [= <- <- <-]; cbn [app]; right; [left|right]; eauto.
  - revert Hrun. unfold transitionToRunning. st_unfold.
    destruct (container_SetProperty h ContainerStateProperty StateRunning (garden w))
      as [[e1|] g1]; st_unfold.
    { intros [= <- <- <-]. split; [done|]. intros (c & Hin). trace_absent Hin. }
    destruct (exchanger_Garden2Executor h g1) as [[c [e3|]] g3]; st_unfold;
      intros [= <- <- <-]; cbn [app].
    + split; [done|]. intros (c' & Hin). trace_absent Hin.
    + split; [|done]. intros _. exists c.
      do 2 (apply elem_of_cons; right). apply elem_of_cons. by left.
Qed.

(** *** The step process, whatever it receives *)

(** The loop is left when the completion of the step tree is received. *)
Lemma OUTER_LOOP_exits_on_completion p logger sched signals started result w x :
  RecvSeqComplete x ∈ sched ->
  ∃ result' w' t,
    OUTER_LOOP p logger sched signals started result w = (Some result', w', t).
Proof.
  revert signals started w.
  induction sched as [|y sched IH]; intros signals started w Hin.
  { by apply elem_of_nil in Hin. }
  destruct y as [| |err]; cbn [store.OUTER_LOOP].
  - apply elem_of_cons in Hin as [Heq|Hin]; [discriminate|].
    destruct signals; [|by apply IH]. st_unfold.
    destruct (IH false started w Hin) as (r1 & w1 & t1 & Hloop).
    destruct (p_monitorStep p); cbv beta iota; rewrite Hloop; eauto.
  - apply elem_of_cons in Hin as [Heq|Hin]; [discriminate|].
    destruct started; [|by apply IH]. unfold transitionToRunning. st_unfold.
    destruct (container_SetProperty (p_gardenContainer p) ContainerStateProperty
                                    StateRunning (garden w)) as [[e1|] g1];
      st_unfold; [eauto|].
    destruct (exchanger_Garden2Executor (p_gardenContainer p) g1)
      as [[c [e2|]] g2]; st_unfold; [eauto|].
    destruct (IH signals false (setGarden w g2) Hin) as (r1 & w1 & t1 & Hloop).
    rewrite Hloop. eauto.
  - st_unfold. destruct err; eauto.
Qed.

(** What follows the loop returns nil, and is made of log lines around
    the transition to Completed. *)
Lemma stepProcess_complete_trace p logger result w r w' tc :
  stepProcess_complete p logger result w = (r, w', tc) ->
  r = None
  ∧ ∃ terr t2,
      transitionToComplete (p_gardenContainer p) result w = (terr, w', t2)
      ∧ tc = ELog (logEntry DEBUG logger "transitioning-to-complete" None [])
             :: t2
             ++ [match terr with
                 | Some e => ELog (logEntry ERROR logger
                                            "failed-transitioning-to-complete"
                                            (Some e) [])
                 | None => ELog (logEntry DEBUG logger
                                          "succeeded-transitioning-to-complete"
                                          None [])
                 end;
                 ELog (logEntry INFO logger "finished" None [])].
Proof.
  unfold store.stepProcess_complete. st_unfold.
  destruct (transitionToComplete (p_gardenContainer p) result w)
    as [[terr w2] t2] eqn:Htrans.
  destruct terr; st_unfold; intros [= <- <- <-];
    (split; [reflexivity|]); eexists _, _; (split; [reflexivity|]);
    cbn; by rewrite <- ?app_assoc.
Qed.

(** X7. The step process ends with the step tree and never reports an
    error: whenever the completion of the step tree is among what its
    [select] receives, the process function returns, and the value it
    returns is always nil, even when a transition failed. Signals alone
    never end it: after any number of them it is still in its loop,
    having cancelled the steps once and changed nothing in the world. *)
Theorem stepProcess_ends_with_the_step_tree p sched w :
  (∀ r w' t, stepProcess p sched w = (Some r, w', t) -> r = None)
  ∧ (∀ x, RecvSeqComplete x ∈ sched ->
          ∃ w' t, stepProcess p sched w = (Some None, w', t))
  ∧ (Forall (fun r => r = RecvSignal) sched ->
     stepProcess p sched w = (None, w, beforeReadiness p sched)).
Proof.
  split; [|split].
  - intros r w' t. rewrite stepProcess_unfold.
    destruct (OUTER_LOOP p (processLogger p) sched true true
                         (mkRunResult false EmptyString) w)
      as [[[result|] wl] tl]; [|discriminate].
    destruct (stepProcess_complete p (processLogger p) result wl)
      as [[x w2] tc] eqn:Hcomplete.
    apply stepProcess_complete_trace in Hcomplete as (-> & _).
    by intros [= <- _ _].
  - intros x Hin. rewrite stepProcess_unfold.
    destruct (OUTER_LOOP_exits_on_completion p (processLogger p) sched true true
                (mkRunResult false EmptyString) w x Hin)
      as (result & wl & tl & ->).
    destruct (stepProcess_complete p (processLogger p) result wl)
      as [[r w2] tc] eqn:Hcomplete.
    apply stepProcess_complete_trace in Hcomplete as (-> & _). eauto.
  - intros Hsignals. rewrite stepProcess_unfold.
    rewrite <- (app_nil_r sched) at 1.
    rewrite (OUTER_LOOP_signals Error p sched [] true true _ w Hsignals).
    cbn [store.OUTER_LOOP]. unfold ret, beforeReadiness.
    destruct sched; cbn; by rewrite ?app_nil_r.
Qed.

(** The counts of a trace that ends with explicit effects. *)
Lemma count_app (f : Effect ExecutorAction H -> bool) t1 t2 :
  count f (t1 ++ t2) = (count f t1 + count f t2)%nat.
Proof. unfold count. by rewrite List.filter_app, length_app. Qed.

Lemma count_cons (f : Effect ExecutorAction H -> bool) x t :
  count f (x :: t) = ((if f x then 1 else 0) + count f t)%nat.
Proof. unfold count. cbn. by destruct (f x). Qed.

Lemma count_nil (f : Effect ExecutorAction H -> bool) : count f [] = 0%nat.
Proof. reflexivity. Qed.

Lemma count_zero_elem_of (f : Effect ExecutorAction H -> bool) t x :
  count f t = 0%nat -> x ∈ t -> f x = false.
Proof.
  unfold count. intros Hzero%length_zero_iff_nil Hin%list_elem_of_In.
  destruct (f x) eqn:Hfx; [|reflexivity].
  assert (In x (List.filter f t)) as Hfiltered by (by apply List.filter_In).
  rewrite Hzero in Hfiltered. destruct Hfiltered.
Qed.

Ltac count_simpl :=
  repeat (rewrite ?count_app, ?count_cons, ?count_nil in *; cbn [app] in * );
  cbn [isLog isReceiveSignal isReceiveStarted isReceiveSeqComplete isCancel
       isRunningEvent isCompleteEvent] in *.

(** What the loop does, counted. *)
Lemma OUTER_LOOP_counts p logger sched signals started result w r w' t :
  OUTER_LOOP p logger sched signals started result w = (r, w', t) ->
  (count isReceiveSignal t <= if signals then 1 else 0)%nat
  ∧ (count isReceiveStarted t <= if started then 1 else 0)%nat
  ∧ (count isRunningEvent t <= count isReceiveStarted t)%nat
  ∧ (count isReceiveSeqComplete t <= 1)%nat
  ∧ count isCancel t
    = (count isReceiveSignal t
       * match p_monitorStep p with Some _ => 2 | None => 1 end)%nat
  ∧ count isCompleteEvent t = 0%nat.
Proof.
  revert signals started w r w' t.
  induction sched as [|x sched IH]; intros signals started w r w' t.
  { cbn. intros [= <- <- <-]. count_simpl. destruct signals, started; lia. }
  destruct x as [| |err]; cbn [store.OUTER_LOOP].
  - destruct signals.
    + st_unfold.
      destruct (p_monitorStep p) eqn:Hmon; cbv beta iota;
        (destruct (OUTER_LOOP p logger sched false started result w)
           as [[r1 w1] t1] eqn:Hloop);
        apply IH in Hloop; intros [= <- <- <-]; count_simpl;
        try rewrite Hmon in *; lia.
    + intros Hloop. apply IH in Hloop. exact Hloop.
  - destruct started.
    + unfold transitionToRunning. st_unfold.
      destruct (container_SetProperty (p_gardenContainer p) ContainerStateProperty
                                      StateRunning (garden w)) as [[e1|] g1];
        st_unfold.
      { intros [= <- <- <-]. count_simpl. destruct signals, (p_monitorStep p); lia. }
      destruct (exchanger_Garden2Executor (p_gardenContainer p) g1)
        as [[c [e2|]] g2]; st_unfold.
      { intros [= <- <- <-]. count_simpl. destruct signals, (p_monitorStep p); lia. }
      destruct (OUTER_LOOP p logger sched signals false result (setGarden w g2))
        as [[r1 w1] t1] eqn:Hloop.
      apply IH in Hloop. intros [= <- <- <-]. count_simpl.
      destruct signals, (p_monitorStep p); lia.
    + intros Hloop. apply IH in Hloop. destruct signals; lia.
  - st_unfold. destruct err; intros [= <- <- <-]; count_simpl;
      destruct signals, started, (p_monitorStep p); lia.
Qed.

(** What the transition to Completed does, counted. *)
Lemma transitionToComplete_counts h result w terr w2 t :
  transitionToComplete h result w = (terr, w2, t) ->
  count isReceiveSignal t = 0%nat
  ∧ count isReceiveStarted t = 0%nat
  ∧ count isReceiveSeqComplete t = 0%nat
  ∧ count isCancel t = 0%nat
  ∧ count isRunningEvent t = 0%nat
  ∧ count isLog t = 0%nat
  ∧ count isCompleteEvent t = match terr with Some _ => 0 | None => 1 end%nat
  ∧ (terr = None -> ∃ t0 c, t = t0 ++ [EEmitEvent (ContainerCompleteEvent c)]
                            ∧ count isCompleteEvent t0 = 0%nat).
Proof.
  unfold store.transitionToComplete.
  destruct (json_Marshal result) as [json [e0|]].
  { st_unfold. intros [= <- <- <-]. count_simpl. repeat split; done. }
  st_unfold.
  destruct (container_SetProperty h ContainerResultProperty json (garden w))
    as [[e1|] g1]; st_unfold.
  { intros [= <- <- <-]. count_simpl. repeat split; done. }
  destruct (container_SetProperty h ContainerStateProperty StateCompleted g1)
    as [[e2|] g2]; st_unfold.
  { intros [= <- <- <-]. count_simpl. repeat split; done. }
  destruct (exchanger_Garden2Executor h g2) as [[c [e3|]] g3]; st_unfold;
    intros [= <- <- <-]; count_simpl; repeat split; try done.
  intros _. eexists [_; _; _], c. split; [reflexivity|]. by count_simpl.
Qed.

(** X8. In any run of the step process each case of its [select] fires
    at most once: a signal is received at most once, so the step tree is
    cancelled at most once (and the monitor step with it, just before);
    the readiness token is received at most once, so ContainerRunning is
    emitted at most once; the completion is received at most once; and
    ContainerComplete is emitted at most once. *)
Theorem stepProcess_does_each_thing_at_most_once p sched w r w' t :
  stepProcess p sched w = (r, w', t) ->
  (count isReceiveSignal t <= 1)%nat
  ∧ (count isReceiveStarted t <= 1)%nat
  ∧ (count isReceiveSeqComplete t <= 1)%nat
  ∧ (count isRunningEvent t <= 1)%nat
  ∧ (count isCompleteEvent t <= 1)%nat
  ∧ count isCancel t
    = (count isReceiveSignal t
       * match p_monitorStep p with Some _ => 2 | None => 1 end)%nat.
Proof.
  rewrite stepProcess_unfold.
  destruct (OUTER_LOOP p (processLogger p) sched true true
                       (mkRunResult false EmptyString) w)
    as [[[result|] wl] tl] eqn:Hloop;
    apply OUTER_LOOP_counts in Hloop
      as (Hsignal & Hstarted & Hrunning & Hseq & Hcancel & Hcomplete).
  - destruct (stepProcess_complete p (processLogger p) result wl)
      as [[x w2] tc] eqn:Hdone.
    apply stepProcess_complete_trace in Hdone as (_ & terr & t2 & Htrans & ->).
    apply transitionToComplete_counts in Htrans
      as (H1 & H2 & H3 & H4 & H5 & _ & H6 & _).
    intros [= <- <- <-]. count_simpl.
    destruct terr, (p_monitorStep p); count_simpl; lia.
  - intros [= <- <- <-]. count_simpl. destruct (p_monitorStep p); lia.
Qed.

(** X9. When the step process emits ContainerComplete, it is the last
    thing it does apart from its two closing log lines: no event, no
    write to the host, no cancellation and no receive comes after it. So
    ContainerComplete never precedes ContainerRunning. *)
Theorem ContainerComplete_is_the_last_act p sched w r w' t c :
  stepProcess p sched w = (r, w', t) ->
  EEmitEvent (ContainerCompleteEvent c) ∈ t ->
  ∃ t0,
    t = t0
        ++ [EEmitEvent (ContainerCompleteEvent c);
            ELog (logEntry DEBUG (processLogger p)
                           "succeeded-transitioning-to-complete" None []);
            ELog (logEntry INFO (processLogger p) "finished" None [])]
    ∧ count isCompleteEvent t0 = 0%nat
    ∧ r = Some None.
Proof.
  rewrite stepProcess_unfold.
  destruct (OUTER_LOOP p (processLogger p) sched true true
                       (mkRunResult false EmptyString) w)
    as [[[result|] wl] tl] eqn:Hloop;
    apply OUTER_LOOP_counts in Hloop as (_ & _ & _ & _ & _ & Hnone).
  - destruct (stepProcess_complete p (processLogger p) result wl)
      as [[x w2] tc] eqn:Hdone.
    apply stepProcess_complete_trace in Hdone as (-> & terr & t2 & Htrans & ->).
    apply transitionToComplete_counts in Htrans
      as (_ & _ & _ & _ & _ & _ & Hcount & Hlast).
    intros [= <- <- <-] Hin. destruct terr as [e|].
    + exfalso.
      assert (isCompleteEvent (EEmitEvent (ContainerCompleteEvent c)
                               : Effect ExecutorAction H) = false) as Habsurd;
        [|discriminate Habsurd].
      eapply count_zero_elem_of; [|exact Hin]. count_simpl. lia.
    + destruct (Hlast eq_refl) as (t0 & c' & -> & Ht0).
      assert (count isCompleteEvent
                (EGoPerform (p_step p)
                 :: tl ++ ELog (logEntry DEBUG (processLogger p)
                                         "transitioning-to-complete" None [])
                 :: t0) = 0%nat) as Hbefore by (count_simpl; lia).
      assert (c = c') as <-.
      { change (EGoPerform (p_step p)
                :: tl ++ ELog (logEntry DEBUG (processLogger p)
                                        "transitioning-to-complete" None [])
                :: (t0 ++ [EEmitEvent (ContainerCompleteEvent c')])
                ++ [ELog (logEntry DEBUG (processLogger p)
                                   "succeeded-transitioning-to-complete" None []);
                    ELog (logEntry INFO (processLogger p) "finished" None [])])
          with ((EGoPerform (p_step p) :: tl)
                ++ ELog (logEntry DEBUG (processLogger p)
                                  "transitioning-to-complete" None [])
                :: (t0 ++ [EEmitEvent (ContainerCompleteEvent c')])
                ++ [ELog (logEntry DEBUG (processLogger p)
                                   "succeeded-transitioning-to-complete" None []);
                    ELog (logEntry INFO (processLogger p) "finished" None [])])
          in Hin.
        apply elem_of_app in Hin as [Hin|Hin].
        { apply (count_zero_elem_of isCompleteEvent) in Hin; [discriminate Hin|].
          count_simpl. lia. }
        apply elem_of_cons in Hin as [Hin|Hin]; [discriminate|].
        apply elem_of_app in Hin as [Hin|Hin].
        - apply elem_of_app in Hin as [Hin|Hin].
          + apply (count_zero_elem_of isCompleteEvent) in Hin; [discriminate Hin|].
            exact Ht0.
          + apply list_elem_of_singleton in Hin. by injection Hin.
        - trace_absent Hin. }
      exists (EGoPerform (p_step p)
              :: tl ++ ELog (logEntry DEBUG (processLogger p)
                                      "transitioning-to-complete" None [])
              :: t0).
      split; [|split; [exact Hbefore|reflexivity]].
      cbn [app]. f_equal. rewrite <- !app_assoc. cbn [app]. reflexivity.
  - intros [= <- <- <-] Hin. exfalso.
    assert (isCompleteEvent (EEmitEvent (ContainerCompleteEvent c)
                             : Effect ExecutorAction H) = false) as Habsurd;
      [|discriminate Habsurd].
    eapply count_zero_elem_of; [|exact Hin]. count_simpl. lia.
Qed.

(** The result with which the loop is left. *)
Lemma OUTER_LOOP_result p logger sched signals started w result w' t :
  OUTER_LOOP p logger sched signals started (mkRunResult false EmptyString) w
    = (Some result, w', t) ->
  (EReceive (RecvSeqComplete None) ∈ t ∧ result = mkRunResult false EmptyString)
  ∨ ((EReceive (RecvSeqComplete None) ∉ t)
     ∧ ∃ e, result = mkRunResult true (Error e)
            ∧ (EReceive (RecvSeqComplete (Some e)) ∈ t
               ∨ ELog (logEntry ERROR logger "failed-transitioning-to-running"
                                (Some e) []) ∈ t)).
Proof.
  revert signals started w result w' t.
  induction sched as [|x sched IH]; intros signals started w result w' t.
  { cbn. discriminate. }
  destruct x as [| |err]; cbn [store.OUTER_LOOP].
  - destruct signals; [|apply IH]. st_unfold.
    destruct (p_monitorStep p); cbv beta iota;
      (destruct (OUTER_LOOP p logger sched false started
                            (mkRunResult false EmptyString) w)
         as [[r1 w1] t1] eqn:Hloop);
      intros [= -> <- <-]; apply IH in Hloop;
      (destruct Hloop as [(Hin & ->)|(Hnot & e & -> & Hwhy)];
       [left; split; [|reflexivity]
       |right; split; [|exists e; split; [reflexivity|]]]);
      cbn [app]; rewrite ?app_nil_r.
    all: try (repeat (apply elem_of_cons; right); exact Hin).
    all: try (intros Hin; trace_absent Hin).
    all: destruct Hwhy as [Hin|Hin]; [left|right];
      repeat (apply elem_of_cons; right); exact Hin.
  - destruct started; [|apply IH]. unfold transitionToRunning. st_unfold.
    destruct (container_SetProperty (p_gardenContainer p) ContainerStateProperty
                                    StateRunning (garden w)) as [[e1|] g1];
      st_unfold.
    { intros [= <- <- <-]. right. split; [intros Hin; trace_absent Hin|].
      exists e1. split; [reflexivity|]. right.
      do 3 (apply elem_of_cons; right). apply elem_of_cons. by left. }
    destruct (exchanger_Garden2Executor (p_gardenContainer p) g1)
      as [[c [e2|]] g2]; st_unfold.
    { intros [= <- <- <-]. right. split; [intros Hin; trace_absent Hin|].
      exists e2. split; [reflexivity|]. right. cbn [app].
      do 4 (apply elem_of_cons; right). apply elem_of_cons. by left. }
    destruct (OUTER_LOOP p logger sched signals false
                         (mkRunResult false EmptyString) (setGarden w g2))
      as [[r1 w1] t1] eqn:Hloop.
    intros [= -> <- <-]. apply IH in Hloop. cbn [app].
    destruct Hloop as [(Hin & ->)|(Hnot & e & -> & Hwhy)].
    + left. split; [|reflexivity].
      repeat (apply elem_of_cons; right). exact Hin.
    + right. split; [intros Hin; trace_absent Hin|].
      exists e. split; [reflexivity|].
      destruct Hwhy as [Hin|Hin]; [left|right];
        repeat (apply elem_of_cons; right); exact Hin.
  - st_unfold. destruct err as [e|]; intros [= <- <- <-]; cbn [app].
    + right. split; [intros Hin; trace_absent Hin|].
      exists e. split; [reflexivity|]. left. apply elem_of_cons. by left.
    + left. split; [apply elem_of_cons; by left|reflexivity].
Qed.

(** X10. The result that the step process hands to its terminal
    transition is failed exactly when the loop was not left on a step
    tree that completed without error: a completion with an error, or a
    failed transition to Running, gives a failed result whose reason is
    the message of that error; a step tree that completes without error
    gives the result that is not failed, also when a signal made the
    process cancel the steps before. *)
Theorem stepProcess_result_is_failed_on_errors_only p sched w result wl tl :
  OUTER_LOOP p (processLogger p) sched true true
             (mkRunResult false EmptyString) w = (Some result, wl, tl) ->
  (Failed result = false <-> EReceive (RecvSeqComplete None) ∈ tl)
  ∧ (Failed result = false -> result = mkRunResult false EmptyString)
  ∧ (Failed result = true ->
     ∃ e, result = mkRunResult true (Error e)
          ∧ (EReceive (RecvSeqComplete (Some e)) ∈ tl
             ∨ ELog (logEntry ERROR (processLogger p)
                              "failed-transitioning-to-running" (Some e) []) ∈ tl))
  ∧ ∃ r w' tc,
      stepProcess_complete p (processLogger p) result wl = (r, w', tc)
      ∧ stepProcess p sched w = (Some r, w', EGoPerform (p_step p) :: tl ++ tc).
Proof.
  intros Hloop.
  split; [|split; [|split]].
  - destruct (OUTER_LOOP_result _ _ _ _ _ _ _ _ _ Hloop)
      as [(Hin & ->)|(Hnot & e & -> & _)]; cbn; split; done.
  - destruct (OUTER_LOOP_result _ _ _ _ _ _ _ _ _ Hloop)
      as [(Hin & ->)|(Hnot & e & -> & _)]; cbn; done.
  - destruct (OUTER_LOOP_result _ _ _ _ _ _ _ _ _ Hloop)
      as [(Hin & ->)|(Hnot & e & -> & Hwhy)]; cbn; [done|]. eauto.
  - destruct (stepProcess_complete p (processLogger p) result wl)
      as [[r w'] tc] eqn:Hcomplete.
    exists r, w', tc. split; [reflexivity|].
    rewrite stepProcess_unfold, Hloop, Hcomplete. reflexivity.
Qed.

(** *** [Destroy], [Create] and [List] *)

(** [freeStepProcess], effect by effect. *)
Lemma freeStepProcess_trace store logger guid w :
  freeStepProcess store logger guid w
    = (runningProcesses w !! guid,
       setRunningProcesses w (delete guid (runningProcesses w)),
       ELog (logEntry INFO (Session logger "freeing-step-process" [])
                      "started" None [])
       :: match runningProcesses w !! guid with
          | Some p =>
              [ELog (logEntry INFO (Session logger "freeing-step-process" [])
                              "interrupting-process" None []);
               ESignal p]
          | None => []
          end
       ++ [ELog (logEntry INFO (Session logger "freeing-step-process" [])
                          "finished" None [])]).
Proof.
  unfold freeStepProcess. st_unfold.
  destruct (runningProcesses w !! guid) as [p|]; reflexivity.
Qed.

(** [Destroy], effect by effect. *)
Lemma Destroy_trace store logger guid w :
  Destroy store logger guid w
    = let '(err, g') := client_Destroy guid (garden w) in
      (err,
       match err with
       | Some _ =>
           setGarden (setRunningProcesses w (delete guid (runningProcesses w))) g'
       | None =>
           setTracker
             (setGarden (setRunningProcesses w (delete guid (runningProcesses w)))
                        g')
             (delete guid (tracker w))
       end,
       ELog (logEntry INFO (destroyLogger logger guid) "started" None [])
       :: (freeStepProcess store (destroyLogger logger guid) guid w).2
       ++ EGardenDestroy guid err
       :: match err with
          | Some e =>
              [ELog (logEntry ERROR (destroyLogger logger guid)
                              "failed-to-destroy-garden-container" (Some e) [])]
          | None =>
              [ETrackerDeinitialize guid;
               ELog (logEntry INFO (destroyLogger logger guid) "succeeded" None [])]
          end).
Proof.
  unfold Destroy. fold (destroyLogger logger guid). st_unfold.
  rewrite freeStepProcess_trace. st_unfold.
  destruct (client_Destroy guid (garden w)) as [[e|] g']; st_unfold;
    cbn [app]; by rewrite <- ?app_assoc.
Qed.

(** X11. [Destroy] touches nothing but its guid: whatever the host
    answers, the records that the tracker holds for the other guids and
    the handles of their processes are left as they were. The handle of
    the guid is always taken out of the table, and its process, if there
    was one, is signalled, once, before the host is asked to destroy the
    container; no other process is ever signalled. *)
Theorem Destroy_touches_only_its_guid store logger guid w r w' t :
  Destroy store logger guid w = (r, w', t) ->
  (∀ other, other ≠ guid ->
            tracker w' !! other = tracker w !! other
            ∧ runningProcesses w' !! other = runningProcesses w !! other)
  ∧ runningProcesses w' !! guid = None
  ∧ (∀ p, ESignal p ∈ t <-> runningProcesses w !! guid = Some p)
  ∧ (∀ p, ESignal p ∈ t ->
          ∃ t1 t2, t = t1 ++ ESignal p :: t2
                   ∧ EGardenDestroy guid r ∈ t2
                   ∧ ∀ q, ESignal q ∉ t1 ++ t2).
Proof.
  rewrite Destroy_trace, freeStepProcess_trace.
  destruct (client_Destroy guid (garden w)) as [err g'].
  intros [= <- <- <-]. cbn [snd].
  split; [|split; [|split]].
  - intros other Hne. destruct err; cbn;
      rewrite ?lookup_delete_ne by done; done.
  - destruct err; cbn; apply lookup_delete_eq.
  - intros p. destruct (runningProcesses w !! guid) as [q|], err;
      cbn [app]; split; intros Hin; try (by trace_absent Hin);
      try discriminate.
    all: first [ injection Hin as ->;
                 do 3 (apply elem_of_cons; right); apply elem_of_cons; by left
               | repeat (apply elem_of_cons in Hin as [Hin|Hin];
                         [first [by injection Hin as -> | discriminate]|]);
                 by apply elem_of_nil in Hin ].
  - intros p. destruct (runningProcesses w !! guid) as [q|] eqn:Hq;
      [|destruct err; cbn [app]; intros Hin; by trace_absent Hin].
    intros Hin.
    assert (p = q) as ->.
    { destruct err; cbn [app] in Hin;
        repeat (apply elem_of_cons in Hin as [Hin|Hin];
                [first [by injection Hin | discriminate]|]);
        by apply elem_of_nil in Hin. }
    destruct err; eexists [_; _; _], _; (split; [cbn [app]; reflexivity|]);
      split.
    all: try (apply elem_of_cons; right; apply elem_of_cons; by left).
    all: intros q' Hin'; cbn [app] in Hin'; trace_absent Hin'.
Qed.

(** X12. Creating and then destroying, as far as the tracker goes, is a
    round trip: when [Create] succeeds on a record whose guid was not
    tracked and the host then destroys the container, [Destroy] of that
    guid leaves the tracker as it was before [Create]; when the host
    refuses to destroy, the record stays tracked. *)
Theorem Create_then_Destroy_restores_the_tracker
    store logger logger' container w c' g1 :
  State container = StateInitializing ->
  exchanger_CreateInGarden logger (withState container StateCreated) (garden w)
    = ((c', None), g1) ->
  tracker w !! Guid c' = None ->
  ∃ w1 t1,
    Create store logger container w = ((c', None), w1, t1)
    ∧ tracker w1 !! Guid c' = Some c'
    ∧ ∀ r w2 t2,
        Destroy store logger' (Guid c') w1 = (r, w2, t2) ->
        (r = None -> tracker w2 = tracker w)
        ∧ (r ≠ None -> tracker w2 !! Guid c' = Some c').
Proof.
  intros Hstate Hcreate Hfresh.
  eexists _, _. split; [|split].
  - unfold Create. rewrite decide_False by (intros Hne; by apply Hne).
    st_unfold. rewrite Hcreate. st_unfold. reflexivity.
  - apply lookup_insert_eq.
  - intros r w2 t2. rewrite Destroy_trace. cbn [garden setTracker setGarden].
    destruct (client_Destroy (Guid c') g1) as [[e|] g2]; intros [= <- <- <-].
    + split; [discriminate|]. intros _. apply lookup_insert_eq.
    + split; [|done]. intros _. cbn. by apply delete_insert_id.
Qed.



End Proofs.

(** *** The properties at work on the scripted host *)

Import Fixtures ExtraFixtures.

(** An effect that occurs in an explicit trace is found in it. *)
Ltac find_in_trace :=
  repeat (apply elem_of_cons; first [left; reflexivity | right]).

(** X1 on a store whose owner is [executor] and the tag [app = web]. *)
Lemma List_filter_is_owner_and_prefixed_tags_witness :
  List_filter aStore {["app" := "web"]} !! "executor:owner" = Some "executor"
  ∧ List_filter aStore {["app" := "web"]} !! "tag:app" = Some "web"
  ∧ List_filter aStore {["app" := "web"]} !! "owner" = None.
Proof.
  destruct (List_filter_is_owner_and_prefixed_tags aStore {["app" := "web"]})
    as (Howner & Htags & Hother).
  split; [exact Howner|]. split.
  - change "tag:app" with (tagPropertyPrefix +:+ "app").
    rewrite (Htags "app"). apply lookup_singleton_eq.
  - apply Hother; [discriminate|]. intros k. discriminate.
Defined.

(** X2 on the monitored record. *)
Lemma Run_builds_the_step_tree_witness :
  client_Lookup "guid-1" healthyHost = (("guid-1", None), healthyHost)
  ∧ State monitoredRecord = StateCreated
  ∧ ∃ p w' t,
      FRun aStore aLogger monitoredRecord (world healthyHost) = (None, w', t)
      ∧ EInvoke p ∈ t
      ∧ p_hasStartedRunning p = []
      ∧ p_monitorStep p ≠ None.
Proof.
  assert (client_Lookup "guid-1" healthyHost = (("guid-1", None), healthyHost))
    as Hlookup by reflexivity.
  split; [exact Hlookup|]. split; [reflexivity|].
  destruct (Run_builds_the_step_tree Fake.Error Fake.json_Marshal aStore aLogger
              monitoredRecord (world healthyHost) _ _ Hlookup eq_refl)
    as (p & w' & t & stepFor & Hrun & Hin & _ & _ & Hmon & _ & _ & Hempty & _).
  exists p, w', t. split; [exact Hrun|]. split; [exact Hin|].
  split; [by apply Hempty|]. intros Hnone%Hmon. discriminate.
Defined.

(** X3 on a world in which a process of the guid is already running. *)
Lemma Run_stores_the_handle_of_its_process_witness :
  client_Lookup "guid-1" healthyHost = (("guid-1", None), healthyHost)
  ∧ State (record "guid-1" StateCreated) = StateCreated
  ∧ ∃ p w' t,
      FRun aStore aLogger (record "guid-1" StateCreated)
           (runningWorld healthyHost) = (None, w', t)
      ∧ runningProcesses w' !! "guid-1" = Some p
      ∧ tracker w' = ∅.
Proof.
  assert (client_Lookup "guid-1" healthyHost = (("guid-1", None), healthyHost))
    as Hlookup by reflexivity.
  split; [exact Hlookup|]. split; [reflexivity|].
  destruct (Run_stores_the_handle_of_its_process Fake.Error Fake.json_Marshal
              aStore aLogger (record "guid-1" StateCreated)
              (runningWorld healthyHost) _ _ Hlookup eq_refl)
    as (p & w' & t & Hrun & _ & Hhandle & _ & Htracker & _).
  exists p, w', t. split; [exact Hrun|]. split; [exact Hhandle|exact Htracker].
Defined.

(** X4 on the monitored record, whose start timeout is thirty seconds. *)
Lemma Run_start_timeout_in_nanoseconds_witness :
  client_Lookup "guid-1" healthyHost = (("guid-1", None), healthyHost)
  ∧ State monitoredRecord = StateCreated
  ∧ Monitor monitoredRecord = Some "probe"
  ∧ 0 <= StartTimeout monitoredRecord <= 9223372036
  ∧ ∃ (p : FakeProcess) w' t monitored monitorLogger,
      FRun aStore aLogger monitoredRecord (world healthyHost) = (None, w', t)
      ∧ p_monitorStep p
        = Some (NewMonitor monitored monitorLogger 30000000000
                           30000000000 500000000).
Proof.
  assert (client_Lookup "guid-1" healthyHost = (("guid-1", None), healthyHost))
    as Hlookup by reflexivity.
  assert (0 <= StartTimeout monitoredRecord <= 9223372036) as Hrange
    by (cbn; lia).
  split; [exact Hlookup|]. split; [reflexivity|]. split; [reflexivity|].
  split; [exact Hrange|].
  destruct (Run_start_timeout_in_nanoseconds Fake.Error Fake.json_Marshal
              aStore aLogger monitoredRecord (world healthyHost) _ _ "probe"
              Hlookup eq_refl eq_refl)
    as (p & w' & t & monitored & monitorLogger & startTimeout & Hrun & _
        & Hmon & _ & Hexact & _).
  exists p, w', t, monitored, monitorLogger. split; [exact Hrun|].
  rewrite Hmon, (Hexact Hrange). reflexivity.
Defined.

(** X5 on a host in good health. *)
Lemma transitionToComplete_stops_at_the_first_failure_witness :
  ∃ w2 t c,
    transitionToComplete Fake.json_Marshal "guid-1"
                         (mkRunResult false EmptyString) (world healthyHost)
      = (None, w2, t)
    ∧ EEmitEvent (ContainerCompleteEvent c) ∈ t.
Proof.
  assert (∃ w2 t,
            transitionToComplete Fake.json_Marshal "guid-1"
                                 (mkRunResult false EmptyString)
                                 (world healthyHost) = (None, w2, t))
    as (w2 & t & Hrun) by (eexists _, _; reflexivity).
  destruct (transitionToComplete_stops_at_the_first_failure
              Fake.json_Marshal _ _ _ _ _ _ Hrun) as (_ & Hevent).
  destruct (proj1 Hevent eq_refl) as (c & Hin).
  exists w2, t, c. split; [exact Hrun|exact Hin].
Defined.

(** X6 on a host that refuses the write. *)
Lemma transitionToRunning_stops_at_the_first_failure_witness :
  ∃ w2 t,
    transitionToRunning "guid-1" (world refusingWritesHost)
      = (Some connectionRefused, w2, t)
    ∧ (∀ c, EEmitEvent (ContainerRunningEvent c) ∉ t)
    ∧ tracker w2 = ∅.
Proof.
  assert (∃ w2 t,
            transitionToRunning "guid-1" (world refusingWritesHost)
              = (Some connectionRefused, w2, t))
    as (w2 & t & Hrun) by (eexists _, _; reflexivity).
  destruct (transitionToRunning_stops_at_the_first_failure _ _ _ _ _ Hrun)
    as (_ & Hevent & Htracker & _).
  exists w2, t. split; [exact Hrun|]. split; [|exact Htracker].
  intros c Hin. assert (Some connectionRefused = None) as Habsurd; [|discriminate].
  apply Hevent. eauto.
Defined.

(** X7 on a signal followed by the completion, and on two signals. *)
Lemma stepProcess_ends_with_the_step_tree_witness :
  RecvSeqComplete None ∈ [RecvSignal; RecvSeqComplete None]
  ∧ Forall (fun r => r = RecvSignal) [RecvSignal; RecvSignal]
  ∧ (∃ w' t,
       FstepProcess unmonitoredProcess [RecvSignal; RecvSeqComplete None]
                    (world healthyHost) = (Some None, w', t))
  ∧ FstepProcess unmonitoredProcess [RecvSignal; RecvSignal] (world healthyHost)
    = (None, world healthyHost,
       beforeReadiness unmonitoredProcess [RecvSignal; RecvSignal]).
Proof.
  assert (RecvSeqComplete None ∈ [RecvSignal; RecvSeqComplete None]) as Hin
    by find_in_trace.
  assert (Forall (fun r => r = RecvSignal) [RecvSignal; RecvSignal]) as Hsignals
    by (repeat constructor).
  split; [exact Hin|]. split; [exact Hsignals|]. split.
  - destruct (stepProcess_ends_with_the_step_tree Fake.Error Fake.json_Marshal
                unmonitoredProcess [RecvSignal; RecvSeqComplete None]
                (world healthyHost)) as (_ & Hexits & _).
    exact (Hexits None Hin).
  - destruct (stepProcess_ends_with_the_step_tree Fake.Error Fake.json_Marshal
                unmonitoredProcess [RecvSignal; RecvSignal]
                (world healthyHost)) as (_ & _ & Hwaits).
    exact (Hwaits Hsignals).
Defined.

(** X8 on a run in which every channel delivers twice. *)
Lemma stepProcess_does_each_thing_at_most_once_witness :
  ∃ r w' t,
    FstepProcess unmonitoredProcess
                 [RecvSignal; RecvSignal; RecvStarted; RecvStarted;
                  RecvSeqComplete None; RecvSeqComplete None]
                 (world healthyHost) = (r, w', t)
    ∧ (count isReceiveSignal t <= 1)%nat
    ∧ (count isRunningEvent t <= 1)%nat
    ∧ (count isCompleteEvent t <= 1)%nat.
Proof.
  assert (∃ r w' t,
            FstepProcess unmonitoredProcess
                         [RecvSignal; RecvSignal; RecvStarted; RecvStarted;
                          RecvSeqComplete None; RecvSeqComplete None]
                         (world healthyHost) = (r, w', t))
    as (r & w' & t & Hrun) by (eexists _, _, _; reflexivity).
  destruct (stepProcess_does_each_thing_at_most_once Fake.Error Fake.json_Marshal
              _ _ _ _ _ _ Hrun) as (Hsignal & _ & _ & Hrunning & Hcomplete & _).
  exists r, w', t. split; [exact Hrun|]. split; [exact Hsignal|].
  split; [exact Hrunning|exact Hcomplete].
Defined.

(** X9 on a run that is Running and then completes. *)
Lemma ContainerComplete_is_the_last_act_witness :
  ∃ r w' t c t0,
    FstepProcess unmonitoredProcess [RecvStarted; RecvSeqComplete None]
                 (world healthyHost) = (r, w', t)
    ∧ EEmitEvent (ContainerCompleteEvent c) ∈ t
    ∧ t = t0
          ++ [EEmitEvent (ContainerCompleteEvent c);
              ELog (logEntry DEBUG (processLogger unmonitoredProcess)
                             "succeeded-transitioning-to-complete" None []);
              ELog (logEntry INFO (processLogger unmonitoredProcess)
                             "finished" None [])].
Proof.
  assert (∃ r w' t c,
            FstepProcess unmonitoredProcess [RecvStarted; RecvSeqComplete None]
                         (world healthyHost) = (r, w', t)
            ∧ EEmitEvent (ContainerCompleteEvent c) ∈ t)
    as (r & w' & t & c & Hrun & Hin).
  { eexists _, _, _, _. split; [vm_compute; reflexivity|].
    find_in_trace. }
  destruct (ContainerComplete_is_the_last_act Fake.Error Fake.json_Marshal
              _ _ _ _ _ _ _ Hrun Hin) as (t0 & Heq & _).
  exists r, w', t, c, t0. split; [exact Hrun|]. split; [exact Hin|exact Heq].
Defined.

(** X10 on a run that is signalled and whose step tree then completes
    without error. *)
Lemma stepProcess_result_is_failed_on_errors_only_witness :
  ∃ result wl tl,
    OUTER_LOOP Fake.Error unmonitoredProcess (processLogger unmonitoredProcess)
               [RecvSignal; RecvSeqComplete None] true true
               (mkRunResult false EmptyString) (world healthyHost)
      = (Some result, wl, tl)
    ∧ EReceive RecvSignal ∈ tl
    ∧ Failed result = false.
Proof.
  assert (∃ result wl tl,
            OUTER_LOOP Fake.Error unmonitoredProcess
                       (processLogger unmonitoredProcess)
                       [RecvSignal; RecvSeqComplete None] true true
                       (mkRunResult false EmptyString) (world healthyHost)
              = (Some result, wl, tl)
            ∧ EReceive RecvSignal ∈ tl
            ∧ EReceive (RecvSeqComplete None) ∈ tl)
    as (result & wl & tl & Hloop & Hsignal & Hdone).
  { eexists _, _, _. split; [vm_compute; reflexivity|].
    split; find_in_trace. }
  destruct (stepProcess_result_is_failed_on_errors_only Fake.Error
              Fake.json_Marshal _ _ _ _ _ _ Hloop) as (Hfailed & _).
  exists result, wl, tl. split; [exact Hloop|]. split; [exact Hsignal|].
  by apply Hfailed.
Defined.

(** X11 on a world in which the process of the guid is running. *)
Lemma Destroy_touches_only_its_guid_witness :
  ∃ r w' t,
    Destroy aStore aLogger "guid-1" (runningWorld healthyHost) = (r, w', t)
    ∧ runningProcesses w' !! "guid-1" = None
    ∧ ESignal unmonitoredProcess ∈ t.
Proof.
  assert (∃ r w' t,
            Destroy aStore aLogger "guid-1" (runningWorld healthyHost)
              = (r, w', t))
    as (r & w' & t & Hrun) by (eexists _, _, _; reflexivity).
  destruct (Destroy_touches_only_its_guid _ _ _ _ _ _ _ Hrun)
    as (_ & Hgone & Hsignal & _).
  exists r, w', t. split; [exact Hrun|]. split; [exact Hgone|].
  apply Hsignal. apply lookup_singleton_eq.
Defined.

(** X12 on a record in Initializing and a host in good health. *)
Lemma Create_then_Destroy_restores_the_tracker_witness :
  State (record "guid-1" StateInitializing) = StateInitializing
  ∧ tracker (world emptyHost) !! "guid-1" = None
  ∧ ∃ w1 t1,
      Create aStore aLogger (record "guid-1" StateInitializing) (world emptyHost)
        = ((record "guid-1" StateCreated, None), w1, t1)
      ∧ tracker w1 !! "guid-1" = Some (record "guid-1" StateCreated).
Proof.
  assert (tracker (world emptyHost) !! "guid-1" = None) as Hfresh
    by apply lookup_empty.
  assert (exchanger_CreateInGarden aLogger
            (withState (record "guid-1" StateInitializing) StateCreated) emptyHost
          = ((record "guid-1" StateCreated, None),
             Fake.mkFakeGarden ["guid-1"]
               [("guid-1", ContainerStateProperty, StateCreated)] [] None None
               None [])) as Hcreate by reflexivity.
  split; [reflexivity|]. split; [exact Hfresh|].
  destruct (Create_then_Destroy_restores_the_tracker aStore aLogger aLogger
              (record "guid-1" StateInitializing) (world emptyHost) _ _
              eq_refl Hcreate Hfresh) as (w1 & t1 & Hrun & Htracked & _).
  exists w1, t1. split; [exact Hrun|exact Htracked].
Defined.


End StoreExtras.

(** ** Properties of stopping, files and reconciliation *)

Module LifecycleProofs.
Import store store_lifecycle StoreProofs.

Ltac lc_unfold :=
  cbv [defer bind ret emit gets modify lift lifecycleCall
       tracker_SyncInitialized];
  cbn [garden tracker runningProcesses setGarden setTracker
       setRunningProcesses fst snd map app].

Section Proofs.

Context {ExecutorAction G H ReadCloser : Type}
        `{!GardenClient G H, !Exchanger ExecutorAction G H,
          !GardenStreams G H ReadCloser}
        (Error : error -> string)
        (json_Marshal : ContainerRunResult -> string * option error).

Implicit Types (store : GardenStore) (logger : Logger)
  (container : Container ExecutorAction) (w : World ExecutorAction G H)
  (h : H) (e : error) (p : Process ExecutorAction H).

Abbreviation Run := (Run Error json_Marshal).

Lemma world_without_absent_handle w guid :
  runningProcesses w !! guid = None ->
  setRunningProcesses w (delete guid (runningProcesses w)) = w.
Proof. intros Hnone. rewrite delete_id by done. by destruct w. Qed.

(** [Stop], effect by effect. *)
Lemma Stop_trace store logger guid w :
  Stop store logger guid w
    = (match runningProcesses w !! guid with
       | Some _ => None
       | None => Some ErrContainerNotFound
       end,
       setRunningProcesses w (delete guid (runningProcesses w)),
       EStore (ELog (logEntry INFO (stopLogger logger guid) "started" None []))
       :: EStore (ELog (logEntry INFO (Session (stopLogger logger guid)
                                               "freeing-step-process" [])
                                 "started" None []))
       :: match runningProcesses w !! guid with
          | Some p =>
              [EStore (ELog (logEntry INFO (Session (stopLogger logger guid)
                                                    "freeing-step-process" [])
                                      "interrupting-process" None []));
               EStore (ESignal p);
               EStore (ELog (logEntry INFO (Session (stopLogger logger guid)
                                                    "freeing-step-process" [])
                                      "finished" None []));
               EWait p]
          | None =>
              [EStore (ELog (logEntry INFO (Session (stopLogger logger guid)
                                                    "freeing-step-process" [])
                                      "finished" None []))]
          end
       ++ [EStore (ELog (logEntry INFO (stopLogger logger guid)
                                  "finished" None []))]).
Proof.
  unfold Stop, freeStepProcess. fold (stopLogger logger guid).
  cbv [log]. lc_unfold.
  destruct (runningProcesses w !! guid) as [p|]; reflexivity.
Qed.

(** X14. [Stop] of a guid that has no process handle returns NotFound
    and changes nothing: no process is signalled or waited for. [Stop] of
    a guid that has one takes the handle out of the table, signals the
    process, waits for it to exit, in that order, and returns nil; the
    host, the tracker and the handles of the other guids are left
    alone. *)
Theorem Stop_signals_then_waits store logger guid w :
  (runningProcesses w !! guid = None ->
   ∃ t,
     Stop store logger guid w = (Some ErrContainerNotFound, w, t)
     ∧ Forall (fun x => ∃ entry, x = EStore (ELog entry)) t)
  ∧ (∀ p,
       runningProcesses w !! guid = Some p ->
       ∃ w' t1 t2 t3,
         Stop store logger guid w
           = (None, w', t1 ++ EStore (ESignal p) :: t2 ++ EWait p :: t3)
         ∧ Forall (fun x => ∃ entry, x = EStore (ELog entry)) (t1 ++ t2 ++ t3)
         ∧ runningProcesses w' !! guid = None
         ∧ (∀ other, other ≠ guid ->
                     runningProcesses w' !! other = runningProcesses w !! other)
         ∧ garden w' = garden w
         ∧ tracker w' = tracker w).
Proof.
  split.
  - intros Hnone. rewrite Stop_trace, Hnone, world_without_absent_handle by done.
    eexists. split; [reflexivity|]. cbn [app].
    repeat (apply List.Forall_cons; [eexists; reflexivity|]). apply List.Forall_nil.
  - intros p Hsome. rewrite Stop_trace, Hsome.
    eexists _, [_; _; _], [_], [_]. split; [reflexivity|].
    split.
    { cbn [app].
      repeat (apply List.Forall_cons; [eexists; reflexivity|]).
      apply List.Forall_nil. }
    split; [apply lookup_delete_eq|].
    split; [intros other Hne; by apply lookup_delete_ne|]. done.
Qed.

(** X15. Once [Stop] or [Destroy] has been called for a guid, with
    whatever outcome, a call of [Stop] for that guid returns NotFound and
    changes nothing: a process is stopped at most once. *)
Theorem Stop_after_Stop_or_Destroy_is_not_found store logger logger' guid w :
  (∀ r w1 t1,
     Stop store logger guid w = (r, w1, t1) ->
     ∃ t2,
       Stop store logger' guid w1 = (Some ErrContainerNotFound, w1, t2)
       ∧ Forall (fun x => ∃ entry, x = EStore (ELog entry)) t2)
  ∧ (∀ r w1 t1,
       Destroy store logger guid w = (r, w1, t1) ->
       ∃ t2,
         Stop store logger' guid w1 = (Some ErrContainerNotFound, w1, t2)
         ∧ Forall (fun x => ∃ entry, x = EStore (ELog entry)) t2).
Proof.
  assert (∀ w1, runningProcesses w1 !! guid = None ->
                ∃ t2,
                  Stop store logger' guid w1 = (Some ErrContainerNotFound, w1, t2)
                  ∧ Forall (fun x => ∃ entry, x = EStore (ELog entry)) t2)
    as Hgone.
  { intros w1 Hnone.
    rewrite Stop_trace, Hnone, world_without_absent_handle by done.
    eexists. split; [reflexivity|]. cbn [app].
    repeat (apply List.Forall_cons; [eexists; reflexivity|]). apply List.Forall_nil. }
  split; intros r w1 t1.
  - rewrite Stop_trace. intros [= _ <- _]. apply Hgone. apply lookup_delete_eq.
  - rewrite StoreExtras.Destroy_trace.
    destruct (client_Destroy guid (garden w)) as [[e|] g'];
      intros [= _ <- _]; apply Hgone; apply lookup_delete_eq.
Qed.

(** X16. After [Run] has started the step process of a record, [Stop]
    of the guid of the record signals that very process, waits for it and
    returns nil, and [Destroy] of the guid signals that very process;
    either way the handle is gone from the table afterwards. *)
Theorem Run_then_Stop_or_Destroy_reaches_the_process
    store logger logger' container w h g1 :
  client_Lookup (Guid container) (garden w) = ((h, None), g1) ->
  State container = StateCreated ->
  ∃ p w1 t1,
    Run store logger container w = (None, w1, t1)
    ∧ EInvoke p ∈ t1
    ∧ (∃ w2 t2,
         Stop store logger' (Guid container) w1 = (None, w2, t2)
         ∧ EStore (ESignal p) ∈ t2
         ∧ EWait p ∈ t2
         ∧ runningProcesses w2 !! Guid container = None)
    ∧ (∀ r w2 t2,
         Destroy store logger' (Guid container) w1 = (r, w2, t2) ->
         ESignal p ∈ t2 ∧ runningProcesses w2 !! Guid container = None).
Proof.
  intros Hlookup Hstate.
  destruct (StoreExtras.Run_created Error json_Marshal store logger container
              w h g1 Hlookup Hstate) as (p & Hrun & _).
  eexists p, _, _. split; [exact Hrun|].
  split.
  { apply elem_of_app. right. apply elem_of_app. right.
    apply elem_of_cons. by left. }
  split.
  - rewrite Stop_trace. cbn [runningProcesses setRunningProcesses].
    rewrite lookup_insert_eq. eexists _, _. split; [reflexivity|].
    split; [|split; [|apply lookup_delete_eq]].
    + do 3 (apply elem_of_cons; right). apply elem_of_cons. by left.
    + do 5 (apply elem_of_cons; right). apply elem_of_cons. by left.
  - intros r w2 t2. rewrite StoreExtras.Destroy_trace, StoreExtras.freeStepProcess_trace.
    cbn [garden runningProcesses setRunningProcesses setGarden].
    rewrite lookup_insert_eq.
    destruct (client_Destroy (Guid container) g1) as [[e|] g2];
      intros [= _ <- <-]; cbn; (split; [|apply lookup_delete_eq]);
      do 3 (apply elem_of_cons; right); apply elem_of_cons; by left.
Qed.

(** *** Reconciliation *)

(** One tick of the reconciliation loop when the listing fails. *)
Lemma dance_tick_failure store logger rest w hs e g' :
  client_Containers (List_filter store ∅) (garden w) = ((hs, Some e), g') ->
  dance store logger (TockTick :: rest) w
    = let '(b, w2, t2) := dance store logger rest (setGarden w g') in
      (b, w2,
       [EReceiveTick;
        EStore (EGardenContainers (List_filter store ∅) (Some e));
        EStore (ELog (logEntry ERROR logger "failed-to-list-containers"
                               (Some ErrContainerNotFound) []))]
       ++ t2).
Proof.
  intros Hlist. cbn [dance]. lc_unfold.
  rewrite (List_host_failure store ∅ w hs e g' Hlist). cbv [log]. lc_unfold.
  destruct (dance store logger rest (setGarden w g')) as [[b w2] t2].
  reflexivity.
Qed.

(** One tick of the reconciliation loop when the listing succeeds. *)
Lemma dance_tick_success store logger rest w hs g1 :
  client_Containers (List_filter store ∅) (garden w) = ((hs, None), g1) ->
  dance store logger (TockTick :: rest) w
    = let '(b, w2, t2) :=
        dance store logger rest
              (setTracker (setGarden w (reconstitute hs g1).2)
                          (list_to_map ((fun c => (Guid c, c))
                                        <$> records (reconstitute hs g1).1))) in
      (b, w2,
       [EReceiveTick; EStore (EGardenContainers (List_filter store ∅) None)]
       ++ map EStore (exchanges (reconstitute hs g1).1)
       ++ [ESyncInitialized (records (reconstitute hs g1).1)]
       ++ t2).
Proof.
  intros Hlist. cbn [dance]. lc_unfold.
  rewrite (List_host_success store ∅ w hs g1 Hlist). lc_unfold.
  match goal with
  | |- context [dance store logger rest ?w1] =>
      destruct (dance store logger rest w1) as [[b w2] t2]
  end.
  reflexivity.
Qed.

(** Ticks alone: the loop goes on. *)
Lemma dance_ticks store logger ticks rest w :
  Forall (fun x => x = TockTick) ticks ->
  ∃ w1 t1,
    dance store logger ticks w = (false, w1, t1)
    ∧ dance store logger (ticks ++ rest) w
      = (let '(b, w2, t2) := dance store logger rest w1 in (b, w2, t1 ++ t2))
    ∧ Forall (fun x => x ≠ EReceiveSignal ∧ x ≠ ETickerStop) t1
    ∧ length (List.filter (fun x => match x with
                                    | EReceiveTick => true
                                    | _ => false
                                    end) t1) = length ticks.
Proof.
  intros Hticks. revert w. induction Hticks as [|x ticks -> _ IH]; intros w.
  { exists w, []. split; [reflexivity|]. split; [|split; [constructor|reflexivity]].
    cbn [app]. by destruct (dance store logger rest w) as [[b w2] t2]. }
  destruct (client_Containers (List_filter store ∅) (garden w))
    as [[hs [e|]] g1] eqn:Hlist.
  - destruct (IH (setGarden w g1)) as (w1 & t1 & Hrun & Happ & Hshape & Hcount).
    eexists w1, _.
    cbn [app]. rewrite !(dance_tick_failure _ _ _ _ _ _ _ Hlist), Hrun, Happ.
    split; [reflexivity|]. split; [|split].
    + destruct (dance store logger rest w1) as [[b w2] t2]. reflexivity.
    + cbn [app]. repeat (apply List.Forall_cons; [split; discriminate|]).
      exact Hshape.
    + cbn. by rewrite Hcount.
  - destruct (IH (setTracker (setGarden w (reconstitute hs g1).2)
                             (list_to_map ((fun c => (Guid c, c))
                                           <$> records (reconstitute hs g1).1))))
      as (w1 & t1 & Hrun & Happ & Hshape & Hcount).
    eexists w1, _.
    cbn [app]. rewrite !(dance_tick_success _ _ _ _ _ _ Hlist), Hrun, Happ.
    split; [reflexivity|]. split; [|split].
    + destruct (dance store logger rest w1) as [[b w2] t2].
      cbn [app]. by rewrite <- !app_assoc.
    + cbn [app]. repeat (apply List.Forall_cons; [split; discriminate|]).
      apply Forall_app. split.
      { apply List.Forall_forall. intros x (x0 & <- & _)%List.in_map_iff.
        split; discriminate. }
      apply List.Forall_cons; [split; discriminate|]. exact Hshape.
    + cbn [app List.filter length]. rewrite List.filter_app, length_app.
      cbn [List.filter length].
      assert (List.filter (fun x : LifecycleEffect ExecutorAction H =>
                             match x with EReceiveTick => true | _ => false end)
                          (map EStore (exchanges (reconstitute hs g1).1)) = [])
        as ->.
      { induction (exchanges (reconstitute hs g1).1) as [|y l IHl];
          [reflexivity|exact IHl]. }
      cbn. by rewrite Hcount.
Qed.

(** X17. The reconciliation runner goes on for as long as it receives
    ticks, listing once per tick, and stops at the first signal: it then
    receives nothing more, stops its ticker and returns nil. Without a
    signal it does not return and its ticker is not stopped. *)
Theorem TrackContainers_runs_until_signalled store interval logger ticks w :
  Forall (fun x => x = TockTick) ticks ->
  ∃ w' t,
    TrackContainers store interval logger ticks w
      = (None, w', ENewTicker interval :: ECloseReady :: t)
    ∧ Forall (fun x => x ≠ EReceiveSignal ∧ x ≠ ETickerStop) t
    ∧ length (List.filter (fun x => match x with
                                    | EReceiveTick => true
                                    | _ => false
                                    end) t) = length ticks
    ∧ ∀ rest,
        TrackContainers store interval logger (ticks ++ TockSignal :: rest) w
          = (Some None, w',
             ENewTicker interval :: ECloseReady
             :: t ++ [EReceiveSignal; ETickerStop]).
Proof.
  intros Hticks.
  destruct (dance_ticks store (Session logger "garden-store-track-containers" [])
              ticks [] w Hticks) as (w1 & t1 & Hrun & _ & Hshape & Hcount).
  exists w1, t1. split; [|split; [exact Hshape|split; [exact Hcount|]]].
  - unfold TrackContainers. lc_unfold. rewrite Hrun. cbn. by rewrite app_nil_r.
  - intros rest.
    destruct (dance_ticks store (Session logger "garden-store-track-containers" [])
                ticks (TockSignal :: rest) w Hticks)
      as (w1' & t1' & Hrun' & Happ & _).
    rewrite Hrun in Hrun'. injection Hrun' as <- <-.
    unfold TrackContainers. lc_unfold. rewrite Happ. cbn [dance]. lc_unfold.
    cbn. by rewrite <- !app_assoc.
Qed.

(** X18. On a tick, when the listing fails the reconciliation loop logs
    an error, which is always [ErrContainerNotFound] (the error of the
    host is lost), leaves the tracker as it was and waits for the next
    tick; when the listing succeeds it synchronises the tracker with
    the records that reconstituted, so that the tracker then holds a
    record for a guid exactly when one of these records has that guid,
    and that record is one of them. *)
Theorem TrackContainers_tick_syncs_or_logs store logger rest w hs err g1 :
  client_Containers (List_filter store ∅) (garden w) = ((hs, err), g1) ->
  ∃ w1 t1 b w2 t2,
    dance store logger rest w1 = (b, w2, t2)
    ∧ dance store logger (TockTick :: rest) w = (b, w2, EReceiveTick :: t1 ++ t2)
    ∧ runningProcesses w1 = runningProcesses w
    ∧ match err with
      | Some e =>
          w1 = setGarden w g1
          ∧ t1 = [EStore (EGardenContainers (List_filter store ∅) (Some e));
                  EStore (ELog (logEntry ERROR logger "failed-to-list-containers"
                                         (Some ErrContainerNotFound) []))]
      | None =>
          ∃ listed,
            listed = records (reconstitute hs g1).1
            ∧ ESyncInitialized listed ∈ t1
            ∧ (∀ entry, EStore (ELog entry) ∉ t1)
            ∧ (∀ guid, is_Some (tracker w1 !! guid)
                       <-> ∃ c, c ∈ listed ∧ Guid c = guid)
            ∧ (∀ guid c, tracker w1 !! guid = Some c ->
                         c ∈ listed ∧ Guid c = guid)
      end.
Proof.
  intros Hlist. destruct err as [e|].
  - destruct (dance store logger rest (setGarden w g1)) as [[b w2] t2] eqn:Hrest.
    eexists _, _, b, w2, t2. split; [exact Hrest|].
    rewrite (dance_tick_failure _ _ _ _ _ _ _ Hlist), Hrest.
    split; [reflexivity|]. split; [reflexivity|]. split; reflexivity.
  - set (listed := records (reconstitute hs g1).1).
    set (w1 := setTracker (setGarden w (reconstitute hs g1).2)
                          (list_to_map ((fun c => (Guid c, c)) <$> listed))).
    destruct (dance store logger rest w1) as [[b w2] t2] eqn:Hrest.
    exists w1,
      (EStore (EGardenContainers (List_filter store ∅) None)
       :: map EStore (exchanges (reconstitute hs g1).1)
       ++ [ESyncInitialized listed]),
      b, w2, t2.
    split; [exact Hrest|].
    rewrite (dance_tick_success _ _ _ _ _ _ Hlist). fold listed. fold w1.
    rewrite Hrest. split; [cbn; by rewrite <- !app_assoc|].
    split; [reflexivity|]. exists listed. split; [reflexivity|].
    assert (∀ guid c,
              (list_to_map ((fun c => (Guid c, c)) <$> listed)
               : gmap string (Container ExecutorAction)) !! guid = Some c ->
              c ∈ listed ∧ Guid c = guid) as Hsound.
    { intros guid c Hin%elem_of_list_to_map_2.
      apply list_elem_of_fmap in Hin as (c0 & [= -> ->] & Hin). done. }
    split; [|split; [|split; [|exact Hsound]]].
    + apply elem_of_cons. right. apply elem_of_app. right.
      apply elem_of_cons. by left.
    + intros entry [Heq|Hin]%elem_of_cons; [discriminate|].
      apply elem_of_app in Hin as [Hin|Hin].
      * apply list_elem_of_In, List.in_map_iff in Hin as (x & [= Heq] & Hin).
        apply list_elem_of_In in Hin. subst x.
        by apply exchanges_no_log in Hin.
      * trace_absent Hin.
    + intros guid. cbn [tracker w1 setTracker]. split.
      * intros [c Hc]. apply Hsound in Hc as [Hin Hguid]. eauto.
      * intros (c & Hin & <-).
        destruct ((list_to_map ((fun c => (Guid c, c)) <$> listed)
                   : gmap string (Container ExecutorAction)) !! Guid c)
          as [c'|] eqn:Hlookup; [eauto|].
        exfalso. apply not_elem_of_list_to_map_2 in Hlookup.
        apply Hlookup. rewrite <- list_fmap_compose.
        apply list_elem_of_fmap. exists c. done.
Qed.

(** *** Files *)

(** X19. [Lookup] and [GetFiles] answer every failure of the host
    lookup, whatever the error, with [ErrContainerNotFound] and call
    nothing more: the exchanger is not asked and nothing is streamed.
    When the host container is found they return what the exchanger,
    respectively the stream-out call, returns, its error included and
    unchanged. *)
Theorem Lookup_and_GetFiles_mask_only_the_lookup_error
    store guid sourcePath w h lookupErr g1 :
  client_Lookup guid (garden w) = ((h, lookupErr), g1) ->
  match lookupErr with
  | Some e =>
      Lookup guid w
        = ((emptyContainer, Some ErrContainerNotFound), setGarden w g1,
           [EGardenLookup guid (Some e)])
      ∧ GetFiles store guid sourcePath w
        = ((None, Some ErrContainerNotFound), setGarden w g1,
           [EStore (EGardenLookup guid (Some e))])
  | None =>
      (∀ r g2,
         exchanger_Garden2Executor h g1 = (r, g2) ->
         Lookup guid w
           = (r, setGarden w g2,
              [EGardenLookup guid None; EGarden2Executor h r.2]))
      ∧ (∀ r g2,
           container_StreamOut h sourcePath g1 = (r, g2) ->
           GetFiles store guid sourcePath w
             = (r, setGarden w g2,
                [EStore (EGardenLookup guid None); EStreamOut h sourcePath r.2]))
  end.
Proof.
  intros Hlookup. destruct lookupErr as [e|].
  - split.
    + unfold Lookup. st_unfold. rewrite Hlookup. reflexivity.
    + unfold GetFiles. cbv [gardenClient_Lookup hostCall]. lc_unfold.
      rewrite Hlookup. reflexivity.
  - split; intros r g2 Hcall.
    + unfold Lookup. st_unfold. rewrite Hlookup. st_unfold. rewrite Hcall.
      reflexivity.
    + unfold GetFiles. cbv [gardenClient_Lookup hostCall]. lc_unfold.
      rewrite Hlookup. lc_unfold. rewrite Hcall. reflexivity.
Qed.

End Proofs.

(** *** The properties at work on the scripted host *)

Import Fixtures ExtraFixtures.

(** X14 on a fresh store, whose table is empty, and on a world in which
    the process of the guid is running. *)
Lemma Stop_signals_then_waits_witness :
  (NewGardenStore (ExecutorAction := string) (H := string)
                  "executor" 30000000000 500000000).2 !! "guid-1" = None
  ∧ runningProcesses (runningWorld healthyHost) !! "guid-1"
    = Some unmonitoredProcess
  ∧ (∃ t,
       Stop aStore aLogger "guid-1"
            (mkWorld healthyHost ∅
                     (NewGardenStore "executor" 30000000000 500000000).2)
         = (Some ErrContainerNotFound, world healthyHost, t))
  ∧ (∃ w' t,
       Stop aStore aLogger "guid-1" (runningWorld healthyHost) = (None, w', t)
       ∧ EWait unmonitoredProcess ∈ t
       ∧ runningProcesses w' !! "guid-1" = None).
Proof.
  assert (runningProcesses (world healthyHost) !! "guid-1" = None) as Hnone
    by apply lookup_empty.
  assert (runningProcesses (runningWorld healthyHost) !! "guid-1"
          = Some unmonitoredProcess) as Hsome by apply lookup_singleton_eq.
  split; [exact Hnone|]. split; [exact Hsome|]. split.
  - destruct (Stop_signals_then_waits aStore aLogger "guid-1" (world healthyHost))
      as (Hunknown & _).
    destruct (Hunknown Hnone) as (t & Hrun & _). exists t. exact Hrun.
  - destruct (Stop_signals_then_waits aStore aLogger "guid-1"
                (runningWorld healthyHost)) as (_ & Hknown).
    destruct (Hknown _ Hsome) as (w' & t1 & t2 & t3 & Hrun & _ & Hgone & _).
    eexists w', _. split; [exact Hrun|]. split; [|exact Hgone].
    apply elem_of_app. right. apply elem_of_cons. right.
    apply elem_of_app. right. apply elem_of_cons. by left.
Defined.

(** X15 on a world in which the process of the guid is running. *)
Lemma Stop_after_Stop_or_Destroy_is_not_found_witness :
  ∃ w1 t1 t2,
    Stop aStore aLogger "guid-1" (runningWorld healthyHost) = (None, w1, t1)
    ∧ Stop aStore aLogger "guid-1" w1 = (Some ErrContainerNotFound, w1, t2).
Proof.
  assert (∃ w1 t1,
            Stop aStore aLogger "guid-1" (runningWorld healthyHost)
              = (None, w1, t1))
    as (w1 & t1 & Hrun).
  { eexists _, _. rewrite Stop_trace.
    unfold runningWorld. cbn [runningProcesses].
    rewrite lookup_singleton_eq. reflexivity. }
  destruct (Stop_after_Stop_or_Destroy_is_not_found aStore aLogger aLogger
              "guid-1" (runningWorld healthyHost)) as (Hstop & _).
  destruct (Hstop _ _ _ Hrun) as (t2 & Hagain & _).
  exists w1, t1, t2. split; [exact Hrun|exact Hagain].
Defined.

(** X16 on the unmonitored record of the fixtures. *)
Lemma Run_then_Stop_or_Destroy_reaches_the_process_witness :
  client_Lookup "guid-1" healthyHost = (("guid-1", None), healthyHost)
  ∧ State (record "guid-1" StateCreated) = StateCreated
  ∧ ∃ p w1 t1 w2 t2,
      FRun aStore aLogger (record "guid-1" StateCreated) (world healthyHost)
        = (None, w1, t1)
      ∧ EInvoke p ∈ t1
      ∧ Stop aStore aLogger "guid-1" w1 = (None, w2, t2)
      ∧ EWait p ∈ t2.
Proof.
  assert (client_Lookup "guid-1" healthyHost = (("guid-1", None), healthyHost))
    as Hlookup by reflexivity.
  split; [exact Hlookup|]. split; [reflexivity|].
  destruct (Run_then_Stop_or_Destroy_reaches_the_process Fake.Error
              Fake.json_Marshal aStore aLogger aLogger
              (record "guid-1" StateCreated) (world healthyHost) _ _ Hlookup
              eq_refl)
    as (p & w1 & t1 & Hrun & Hin & (w2 & t2 & Hstop & _ & Hwait & _) & _).
  exists p, w1, t1, w2, t2. repeat split; assumption.
Defined.

(** X17 on two ticks, with and without a signal after them. *)
Lemma TrackContainers_runs_until_signalled_witness :
  Forall (fun x => x = TockTick) [TockTick; TockTick]
  ∧ ∃ w' t,
      TrackContainers aStore 30000000000 aLogger [TockTick; TockTick]
                      (world mixedHost)
        = (None, w', ENewTicker 30000000000 :: ECloseReady :: t)
      ∧ TrackContainers aStore 30000000000 aLogger
                        [TockTick; TockTick; TockSignal; TockTick]
                        (world mixedHost)
        = (Some None, w',
           ENewTicker 30000000000 :: ECloseReady
           :: t ++ [EReceiveSignal; ETickerStop]).
Proof.
  assert (Forall (fun x => x = TockTick) [TockTick; TockTick]) as Hticks
    by (repeat constructor).
  split; [exact Hticks|].
  destruct (TrackContainers_runs_until_signalled aStore 30000000000 aLogger
              [TockTick; TockTick] (world mixedHost) Hticks)
    as (w' & t & Hrun & _ & _ & Hsignal).
  exists w', t. split; [exact Hrun|]. exact (Hsignal [TockTick]).
Defined.

(** X18 on a host whose listing succeeds and on one whose listing fails. *)
Lemma TrackContainers_tick_syncs_or_logs_witness :
  client_Containers (List_filter aStore ∅) mixedHost
    = ((["guid-1"; "guid-2"; "guid-3"], None), mixedHost)
  ∧ client_Containers (List_filter aStore ∅) refusingListHost
    = (([], Some connectionRefused), refusingListHost)
  ∧ (∃ w2 t,
       dance aStore aLogger [TockTick] (world mixedHost) = (false, w2, t)
       ∧ is_Some (tracker w2 !! "guid-1")
       ∧ tracker w2 !! "guid-2" = None)
  ∧ (∃ w2 t,
       dance aStore aLogger [TockTick] (trackingWorld refusingListHost)
         = (false, w2, t)
       ∧ tracker w2 = tracker (trackingWorld refusingListHost)).
Proof.
  assert (client_Containers (List_filter aStore ∅) mixedHost
          = ((["guid-1"; "guid-2"; "guid-3"], None), mixedHost)) as Hok
    by reflexivity.
  assert (client_Containers (List_filter aStore ∅) refusingListHost
          = (([], Some connectionRefused), refusingListHost)) as Hfail
    by reflexivity.
  split; [exact Hok|]. split; [exact Hfail|]. split.
  - destruct (TrackContainers_tick_syncs_or_logs aStore aLogger []
                (world mixedHost) _ _ _ Hok)
      as (w1 & t1 & b & w2 & t2 & Hrest & Hrun & _ & listed & Hlisted & _ & _
          & Hdom & Hsound).
    injection Hrest as <- <- <-.
    eexists w1, _. split; [exact Hrun|]. split.
    + apply Hdom. exists (Fake.Garden2Executor "guid-1" mixedHost).1.1.
      split; [|reflexivity]. rewrite Hlisted. apply elem_of_cons. by left.
    + destruct (tracker w1 !! "guid-2") as [c|] eqn:Hlookup; [|reflexivity].
      exfalso. apply Hsound in Hlookup as [Hin Hguid].
      rewrite Hlisted in Hin.
      apply elem_of_cons in Hin as [->|Hin]; [discriminate Hguid|].
      apply elem_of_cons in Hin as [->|Hin]; [discriminate Hguid|].
      by apply elem_of_nil in Hin.
  - destruct (TrackContainers_tick_syncs_or_logs aStore aLogger []
                (trackingWorld refusingListHost) _ _ _ Hfail)
      as (w1 & t1 & b & w2 & t2 & Hrest & Hrun & _ & -> & _).
    injection Hrest as <- <- <-.
    eexists _, _. split; [exact Hrun|reflexivity].
Defined.

(** X19 on a host that does not hold the container, and on one that
    does. *)
Lemma Lookup_and_GetFiles_mask_only_the_lookup_error_witness :
  client_Lookup "guid-1" emptyHost
    = ((EmptyString, Some GardenErrContainerNotFound), emptyHost)
  ∧ client_Lookup "guid-1" healthyHost = (("guid-1", None), healthyHost)
  ∧ GetFiles aStore "guid-1" "/tmp/out" (world emptyHost)
    = ((None, Some ErrContainerNotFound), world emptyHost,
       [EStore (EGardenLookup "guid-1" (Some GardenErrContainerNotFound))])
  ∧ GetFiles aStore "guid-1" "/tmp/out" (world healthyHost)
    = ((Some "/tmp/out", None), world healthyHost,
       [EStore (EGardenLookup "guid-1" None);
        EStreamOut "guid-1" "/tmp/out" None]).
Proof.
  assert (client_Lookup "guid-1" emptyHost
          = ((EmptyString, Some GardenErrContainerNotFound), emptyHost))
    as Habsent by reflexivity.
  assert (client_Lookup "guid-1" healthyHost = (("guid-1", None), healthyHost))
    as Hfound by reflexivity.
  split; [exact Habsent|]. split; [exact Hfound|]. split.
  - exact (proj2 (Lookup_and_GetFiles_mask_only_the_lookup_error aStore "guid-1"
                    "/tmp/out" (world emptyHost) _ _ _ Habsent)).
  - destruct (Lookup_and_GetFiles_mask_only_the_lookup_error aStore "guid-1"
                "/tmp/out" (world healthyHost) _ _ _ Hfound) as (_ & Hstream).
    exact (Hstream (Some "/tmp/out", None) healthyHost eq_refl).
Defined.

End LifecycleProofs.

(** ** Further properties of [ExecuteAction] *)

Module ExecuteActionExtras.
Import execute_action ExecuteActionProofs.

Section Proofs.

Context (Error : error -> string).

Abbreviation Perform := (Perform Error).
Abbreviation step := (step Error).
Abbreviation steps := (steps Error).

(** X20. Calls of [Cancel] and [Cleanup] cannot be observed, wherever
    they fall among the calls made on an action and the delivery of the
    inner result: what the action has done and the state of the [RunOnce]
    record are the same as if these calls had not been made. *)
Theorem Cancel_and_Cleanup_are_unobservable (s : Sys) (inputs : list Input) :
  steps s inputs
    = steps s (List.filter (fun i => negb (isCancelOrCleanup i)) inputs).
Proof.
  revert s. induction inputs as [|i inputs IH]; intros s; [reflexivity|].
  unfold execute_action.steps in *. cbn [fold_left List.filter].
  destruct (isCancelOrCleanup i) eqn:Hi; cbn [negb fold_left].
  - assert (step s i = s) as ->; [|apply IH].
    destruct i; try discriminate; apply run_noop.
  - apply IH.
Qed.

(** X21. [Perform] never clears a failure and never touches the
    identity of the [RunOnce] record: the guid and the container handle
    are kept, [Failed] is true afterwards exactly when it was true before
    or the inner runner delivered an error, and the failure reason is
    kept when the inner runner delivered nil. After two [Perform]s that
    both failed, the reason is that of the second. *)
Theorem Perform_never_clears_a_failure (inner : option error) (r : RunOnce) :
  ∃ r' t,
    Perform inner r = (tt, r', t)
    ∧ Guid r' = Guid r
    ∧ ContainerHandle r' = ContainerHandle r
    ∧ (Failed r' = true <-> Failed r = true ∨ inner ≠ None)
    ∧ (inner = None -> r' = r)
    ∧ (∀ e, inner = Some e -> FailureReason r' = Error e)
    ∧ ∀ e2, ∃ t2,
        Perform (Some e2) r'
          = (tt, setFailureReason (setFailed r true) (Error e2), t2).
Proof.
  destruct r as [guid handle failed reason].
  destruct inner as [e|]; eexists _, _; (split; [reflexivity|]); cbn.
  - repeat split; try done; eauto; try (intros e0 Heq; congruence).
  - repeat split; try done; eauto.
    intros [Hfailed|Habsurd]; done.
Qed.

End Proofs.

(** X21 on a record that had failed before and an inner runner that
    delivers nil. *)
Lemma Perform_never_clears_a_failure_witness :
  ∃ r' t,
    execute_action.Perform store.Fake.Error None
        (mkRunOnce "runonce-1" "handle-1" true "earlier failure")
      = (tt, r', t)
    ∧ Failed r' = true
    ∧ FailureReason r' = "earlier failure".
Proof.
  destruct (Perform_never_clears_a_failure store.Fake.Error None
              (mkRunOnce "runonce-1" "handle-1" true "earlier failure"))
    as (r' & t & Hrun & _ & _ & Hfailed & Hsame & _).
  exists r', t. split; [exact Hrun|]. split.
  - apply Hfailed. by left.
  - by rewrite (Hsame eq_refl).
Defined.

End ExecuteActionExtras.
